(** * fmriflows: first-level analysis notebook

    A shallow embedding of the configuration cells and of the
    Function-node bodies of [notebooks/03_analysis_1st-level.ipynb],
    with the properties of its specification proved about them. *)

From Stdlib Require Import ZArith String Ascii List.
From Stdlib Require Import DecimalString DecimalNat DecimalFacts.
From stdpp Require Import base list strings gmap sorting.

Set Warnings "-register-all".

(** ** Python exceptions and the error monad *)

Inductive exn : Type :=
  | FileNotFoundError (path : string)
  | KeyError (key : string)
  | IndexError
  | TypeError
  | ValueError.

Inductive result (A : Type) : Type :=
  | Ok (a : A)
  | Raise (e : exn).
Arguments Ok {A} a.
Arguments Raise {A} e.

Global Instance result_ret : MRet result := fun A a => Ok a.
Global Instance result_bind : MBind result := fun A B k m =>
  match m with
  | Ok a => k a
  | Raise e => Raise e
  end.

(** ** printf-style integer formatting: ['%0wd' % n] for [n >= 0] *)

Definition decimal (n : nat) : string := NilZero.string_of_uint (Nat.to_uint n).

Fixpoint zeros (k : nat) : string :=
  match k with
  | O => EmptyString
  | S k' => String "0" (zeros k')
  end.

Definition fmt_d (w n : nat) : string :=
  zeros (w - String.length (decimal n)) +:+ decimal n.

(** Reading a run of decimal digits back. *)
Definition read_d (s : string) : option nat :=
  Nat.of_uint <$> NilZero.uint_of_string s.

(** ** User-declared contrasts (cell "Aggregate all user specified contrasts") *)

Section Contrasts.

(** JSON numbers are carried through untouched by this cell. *)
Variable num : Type.

(** The [weights] field: a number or an array of weights. *)
Inductive json : Type :=
  | JNum (x : num)
  | JArr (l : list json).

(** One entry of [specs['contrasts']]. *)
Record con_spec : Type := ConSpec {
  c_name : string;
  c_type : string;
  c_weights : json
}.

(** The list [[name, 'T', condition_names, weights]]. *)
Record t_contrast : Type := TContrast {
  t_name : string;
  t_stat : string;
  t_conditions : list string;
  t_weights : json
}.

(** An entry of [contrast_list]: a four-element list for a T contrast,
    a three-element list whose last element is a list of T contrasts for
    an F contrast. *)
Inductive contrast : Type :=
  | TCon (t : t_contrast)
  | FCon (name : string) (stat : string) (tcons : list t_contrast).

(** [enumerate(v)] needs an iterable. *)
Definition py_iter (v : json) : result (list json) :=
  match v with
  | JArr l => Ok l
  | JNum _ => Raise TypeError
  end.

Definition T_con_name (i : nat) : string := "T_con_" +:+ fmt_d 4 i.

Definition embedded (condition_names : list string) (rows : list json)
  : list t_contrast :=
  imap (fun i f => TContrast (T_con_name i) "T" condition_names f) rows.

Definition f_entry (condition_names : list string) (c : con_spec)
  : result contrast :=
  rows ← py_iter (c_weights c);
  Ok (FCon (c_name c) (c_type c) (embedded condition_names rows)).

Definition t_entry (condition_names : list string) (c : con_spec) : contrast :=
  TCon (TContrast (c_name c) (c_type c) condition_names (c_weights c)).

(** [c['type'] == 'F'] and [c['type'] == 'T'] *)
Definition is_F (c : con_spec) : Prop := c_type c = "F".
Definition is_T (c : con_spec) : Prop := c_type c = "T".

Global Instance is_F_dec (c : con_spec) : Decision (is_F c).
Proof. unfold is_F. apply _. Defined.
Global Instance is_T_dec (c : con_spec) : Decision (is_T c).
Proof. unfold is_T. apply _. Defined.

Definition contrast_list (condition_names : list string)
    (con_specs : list con_spec) : result (list contrast) :=
  fs ← mapM (f_entry condition_names) (filter is_F con_specs);
  Ok (fs ++ map (t_entry condition_names) (filter is_T con_specs)).

End Contrasts.

Arguments JNum {num} x.
Arguments JArr {num} l.
Arguments ConSpec {num} _ _ _.
Arguments c_name {num} _.
Arguments c_type {num} _.
Arguments c_weights {num} _.
Arguments TContrast {num} _ _ _ _.
Arguments t_name {num} _.
Arguments t_stat {num} _.
Arguments t_conditions {num} _.
Arguments t_weights {num} _.
Arguments TCon {num} t.
Arguments FCon {num} name stat tcons.
Arguments embedded {num} _ _.
Arguments f_entry {num} _ _.
Arguments t_entry {num} _ _.
Arguments is_F {num} _.
Arguments is_T {num} _.
Arguments contrast_list {num} _ _.

(** The name ['T_con_%04d' % i] as the specification words it, spelled with the
    numerals of the Standard Library alone: [T_con_], then zeros up to a
    width of four characters, then the position in decimal. *)
Definition positional_name (i : nat) : string :=
  let numeral := NilZero.string_of_uint (Nat.to_uint i) in
  "T_con_"
  +:+ string_of_list_ascii (List.repeat "0"%char (4 - String.length numeral))
  +:+ numeral.

(** The two canonical forms of section 4.1 of the specification, in its
    words: a T contrast is (name, type, condition-name list, weight vector);
    an F contrast is (name, type, embedded list) with one T contrast per
    weight row, named after the row's position counted from zero. *)
Inductive canonical {num} (condition_names : list string) (c : con_spec num)
  : contrast num -> Prop :=
  | canonical_T :
      c_type c = "T" ->
      canonical condition_names c
        (TCon (TContrast (c_name c) "T" condition_names (c_weights c)))
  | canonical_F (rows : list (json num)) (tcons : list (t_contrast num)) :
      c_type c = "F" ->
      c_weights c = JArr rows ->
      length tcons = length rows ->
      (forall i row, rows !! i = Some row ->
         tcons !! i
         = Some (TContrast (positional_name i) "T" condition_names row)) ->
      canonical condition_names c (FCon (c_name c) "F" tcons).

(** ** Strings: substring test, [str.replace], sorting by name *)

(** [n in k] for two Python strings. *)
Fixpoint substringb (n k : string) : bool :=
  String.prefix n k ||
  match k with
  | EmptyString => false
  | String _ k' => substringb n k'
  end.

(** [s.replace(old, new)] for a non-empty [old]: leftmost occurrences,
    not overlapping. [skip] counts the characters of an occurrence of
    [old] that are still to be dropped. *)
Fixpoint replace_from (old new : string) (skip : nat) (s : string) : string :=
  match s with
  | EmptyString => EmptyString
  | String c s' =>
      match skip with
      | S k => replace_from old new k s'
      | O =>
          if String.prefix old s
          then new +:+ replace_from old new (String.length old - 1) s'
          else String c (replace_from old new 0 s')
      end
  end.

Definition str_replace (old new s : string) : string := replace_from old new 0 s.

(** [os.path.join(a, b)] for a relative [b]. *)
Definition opj (a b : string) : string := a +:+ "/" +:+ b.

Section Sorting.

Context {A K : Type}.
Variable cmp : K -> K -> comparison.
Variable key : A -> K.

(** Insertion before the first element with a greater or equal key. *)
Fixpoint insert_sorted (x : A) (l : list A) : list A :=
  match l with
  | [] => [x]
  | y :: l' =>
      match cmp (key x) (key y) with
      | Gt => y :: insert_sorted x l'
      | _ => x :: l
      end
  end.

(** [sorted(l, key=key)]: ascending and stable. *)
Definition sorted_by (l : list A) : list A := foldr insert_sorted [] l.

(** Insertion that keeps one representative per key. *)
Fixpoint insert_unique (x : A) (l : list A) : list A :=
  match l with
  | [] => [x]
  | y :: l' =>
      match cmp (key x) (key y) with
      | Lt => x :: l
      | Eq => l
      | Gt => y :: insert_unique x l'
      end
  end.

(** The sorted distinct values, as [np.unique] and the keys of a pandas
    [groupby] give them. *)
Definition sort_unique (l : list A) : list A := foldr insert_unique [] l.

(** Not greater, by key. *)
Definition key_le (a b : A) : Prop := cmp (key a) (key b) <> Gt.

(** Smaller, by key. *)
Definition key_lt (a b : A) : Prop := cmp (key a) (key b) = Lt.

End Sorting.

Definition np_unique (l : list nat) : list nat := sort_unique Nat.compare id l.
Definition unique_strings (l : list string) : list string :=
  sort_unique String.compare id l.

(** [sorted(glob(pattern))] on the matches of the pattern, each file given
    with what reading it yields. *)
Definition sorted_files {C} (matches : list (string * C)) : list (string * C) :=
  sorted_by String.compare fst matches.

(** [l[i]] on a Python list. *)
Definition py_index {A} (l : list A) (i : nat) : result A :=
  match l !! i with
  | Some a => Ok a
  | None => Raise IndexError
  end.

(** ** Repetition time (cell "Get TR value") *)

(** The files under [/data] that hold a JSON object, by path, each as the
    dict [json.load] returns. *)
Abbreviation json_files num := (gmap string (gmap string num)).

Section Metadata.

Variable num : Type.

Definition func_desc_path (task_id : string) : string :=
  opj "/data" ("task-" +:+ task_id +:+ "_bold.json").

(** [with open(path) as f: json.load(f)] *)
Definition load_json (fs : json_files num) (path : string)
  : result (gmap string num) :=
  match fs !! path with
  | Some d => Ok d
  | None => Raise (FileNotFoundError path)
  end.

(** [d[k]] on a dict. *)
Definition getitem (d : gmap string num) (k : string) : result num :=
  match d !! k with
  | Some v => Ok v
  | None => Raise (KeyError k)
  end.

Definition get_TR (fs : json_files num) (task_id : string) : result num :=
  func_desc ← load_json fs (func_desc_path task_id);
  getitem func_desc "RepetitionTime".

(** The repetition time recorded for a task, if the metadata has one. *)
Definition metadata_entry (fs : json_files num) (task_id : string) : option num :=
  d ← fs !! func_desc_path task_id; d !! "RepetitionTime".

End Metadata.

Arguments func_desc_path _ : assert.
Arguments load_json {num} _ _.
Arguments getitem {num} _ _.
Arguments get_TR {num} _ _.
Arguments metadata_entry {num} _ _.

(** ** Subject information ([subjectinfo]) *)

Section SubjectInfo.

Variable num : Type.
(** The subtraction pandas performs on the onset column. *)
Variable sub : num -> num -> num.

(** A row of an events table whose [condition] column pandas reads as
    text: some cell of the column is not a numeral and no cell is missing.
    (A column of numerals only is held as numbers and grouped in numeric
    order, and a row whose condition is missing belongs to no group: such
    tables are outside these definitions.) *)
Record event : Type := Event {
  condition : string;
  onset : num;
  duration : num
}.

(** nipype's [Bunch(conditions=..., onsets=..., durations=...)]. *)
Record bunch : Type := Bunch {
  conditions : list string;
  onsets : list (list num);
  durations : list (list num)
}.

(** The rows of a condition, in table order. *)
Definition rows_of (c : string) (trialinfo : list event) : list event :=
  filter (fun r => condition r = c) trialinfo.

(** [trialinfo.groupby('condition')] on a text column without missing
    cells: the groups by ascending key, each with its rows in table
    order. *)
Definition groupby (trialinfo : list event) : list (string * list event) :=
  map (fun k => (k, rows_of k trialinfo))
      (unique_strings (map condition trialinfo)).

(** The inner loop of [subjectinfo] over the groups of one run. *)
Definition run_bunch (nss : num) (trialinfo : list event) : bunch :=
  let groups := filter (fun g => g.1 ≠ "empty") (groupby trialinfo) in
  Bunch (map fst groups)
        (map (fun g => map (fun r => sub (onset r) nss) g.2) groups)
        (map (fun g => map duration g.2) groups).

(** The loop [for i, f in enumerate(event_files)], with the two lists it
    appends to. *)
Fixpoint subjectinfo_loop (nss_files : list (string * num)) (i : nat)
    (event_files : list (string * list event))
    (subject_info : list bunch) (stimuli_order : list (list string))
  : result (list bunch * list (list string)) :=
  match event_files with
  | [] => Ok (subject_info, stimuli_order)
  | f :: rest =>
      let trialinfo := f.2 in
      let stimuli_order := stimuli_order ++ [map condition trialinfo] in
      nss ← py_index nss_files i;
      subjectinfo_loop nss_files (S i) rest
        (subject_info ++ [run_bunch nss.2 trialinfo]) stimuli_order
  end.

(** [event_glob] and [nss_glob] are what the two [glob] calls match for
    the subject and the task. *)
Definition subjectinfo (event_glob : list (string * list event))
    (nss_glob : list (string * num))
  : result (list bunch * list (list string)) :=
  let event_files := sorted_files event_glob in
  let nss_files := sorted_files nss_glob in
  subjectinfo_loop nss_files 0 event_files [] [].

End SubjectInfo.

Arguments Event {num} _ _ _.
Arguments condition {num} _.
Arguments onset {num} _.
Arguments duration {num} _.
Arguments Bunch {num} _ _ _.
Arguments conditions {num} _.
Arguments onsets {num} _.
Arguments durations {num} _.
Arguments rows_of {num} _ _.
Arguments groupby {num} _.
Arguments run_bunch {num} _ _ _.
Arguments subjectinfo_loop {num} _ _ _ _ _ _.
Arguments subjectinfo {num} _ _ _.

(** ** Nuisance regressors ([create_nuisance_regressors]) *)

(** A confound table: its columns, header first, in file order. *)
Abbreviation table num := (list (string * list num)).

Section Nuisance.

Variable num : Type.

(** [[k for k in df.keys() for n in nuisance_regressors if n in k]] *)
Definition selection (keys nuisance_regressors : list string) : list string :=
  k ← keys; n ← nuisance_regressors; if substringb n k then [k] else [].

(** How many of the selectors a header contains. *)
Definition hits (nuisance_regressors : list string) (k : string) : nat :=
  length (filter (fun n => substringb n k = true) nuisance_regressors).

(** [df[k]] for one label. *)
Definition column (df : table num) (k : string) : result (string * list num) :=
  match list_find (fun c => c.1 = k) df with
  | Some (_, c) => Ok c
  | None => Raise (KeyError k)
  end.

(** [df[selection]] *)
Definition select_columns (df : table num) (sel : list string) : result (table num) :=
  mapM (column df) sel.

Definition regressor_path (cwd : string) (i : nat) : string :=
  opj cwd ("confounds_" +:+ fmt_d 2 i +:+ ".rst").

(** The loop over [enumerate(confounds)]. [tables] gives what
    [pd.read_table] reads at a path, [written] the files [np.savetxt] has
    written so far, each as the columns of [dfs.values]. *)
Fixpoint regressors_loop (cwd : string) (tables : gmap string (table num))
    (nuisance_regressors : list string) (i : nat) (confounds : list string)
    (regressor_files : list string) (written : gmap string (list (list num)))
  : result (list string * gmap string (list (list num))) :=
  match confounds with
  | [] => Ok (regressor_files, written)
  | c :: rest =>
      df ← match tables !! c with
           | Some df => Ok df
           | None => Raise (FileNotFoundError c)
           end;
      let sel := selection (map fst df) nuisance_regressors in
      dfs ← select_columns df sel;
      let out_file := regressor_path cwd i in
      regressors_loop cwd tables nuisance_regressors (S i) rest
        (regressor_files ++ [out_file]) (<[out_file := map snd dfs]> written)
  end.

Definition create_nuisance_regressors (cwd : string)
    (tables : gmap string (table num)) (written : gmap string (list (list num)))
    (confounds nuisance_regressors : list string)
  : result (list string * gmap string (list (list num))) :=
  regressors_loop cwd tables nuisance_regressors 0 confounds [] written.

(** What the loop writes for one table: every column, in table order,
    once per selector its header contains. *)
Definition regressor_columns (df : table num) (nuisance_regressors : list string)
  : list (list num) :=
  c ← df; replicate (hits nuisance_regressors c.1) c.2.

(** The reading of the specification: the columns whose header contains at
    least one selector, each once, in table order. *)
Definition selected_once (df : table num) (nuisance_regressors : list string)
  : list (list num) :=
  map snd (filter (fun c => 0 < hits nuisance_regressors c.1) df).

End Nuisance.

Arguments selection _ _ : assert.
Arguments hits _ _ : assert.
Arguments column {num} _ _.
Arguments select_columns {num} _ _.
Arguments regressors_loop {num} _ _ _ _ _ _ _.
Arguments regressor_columns {num} _ _.
Arguments selected_once {num} _ _.
Arguments create_nuisance_regressors {num} _ _ _ _ _.

(** ** Contrasts per condition and run ([get_contrast_per_run]) *)

(** An entry [[name, 'T', condition_names, con_id, run_id]]; the two
    indicator vectors hold zeros and a single one. *)
Record run_contrast : Type := RunContrast {
  r_name : string;
  r_stat : string;
  r_conditions : list string;
  r_con_id : list nat;
  r_run_id : list nat
}.

(** The nested list [event_list]: per run, [zip(np.full(len(l), i), l)]. *)
Definition event_list (stimuli_order : list (list string))
  : list (list (nat * string)) :=
  imap (fun i l => zip (replicate (length l) i) l) stimuli_order.

(** All runs list the same number of events. *)
Definition rectangular {A} (ll : list (list A)) : bool :=
  match ll with
  | [] => true
  | l :: rest => forallb (fun l' => Nat.eqb (length l') (length l)) rest
  end.

(** [np.reshape(event_list, (-1, 2))]. A nested list whose runs have the same
    length converts to an array of shape (runs, events, 2), whose rows are
    then laid out one after the other. numpy does not build that array from
    runs of different lengths; the conversion is modelled as failing there. *)
Definition np_reshape_pairs (events : list (list (nat * string)))
  : result (list (nat * string)) :=
  if rectangular events then Ok (concat events) else Raise ValueError.

(** The distinct run numbers found in the first column of [event_info]
    (the array holds them as text; only their number is used). *)
Definition runs_with_events (stimuli_order : list (list string)) : list nat :=
  np_unique (map fst (concat (event_list stimuli_order))).

Definition cont_name (n : nat) : string := "cont_" +:+ fmt_d 5 n.

(** [np.zeros(n).tolist()] with position [i] set to one. *)
Definition indicator (n i : nat) : list nat := <[i := 1]> (replicate n 0).

(** The body of the two nested loops, for run [j] and condition [i]. *)
Definition run_entry (condition_names : list string)
    (n_contrasts n_conditions j i : nat) : result (run_contrast * string) :=
  let name := cont_name (1 + i + j * n_conditions) in
  let con_id := indicator n_contrasts i in
  let run_id := indicator n_conditions j in
  label ← py_index condition_names i;
  Ok (RunContrast name "T" condition_names con_id run_id, label).

Definition get_contrast_per_run (stimuli_order : list (list string))
    (condition_names : list string)
  : result (list run_contrast * list string) :=
  event_info ← np_reshape_pairs (event_list stimuli_order);
  let unique_contrasts := unique_strings (map snd event_info) in
  let n_runs := np_unique (map fst event_info) in
  let n_contrasts := length condition_names in
  let n_conditions := length n_runs in
  entries ← mapM (fun ji => run_entry condition_names n_contrasts n_conditions
                                     ji.1 ji.2)
                 (j ← seq 0 n_conditions; i ← seq 0 n_contrasts; [(j, i)]);
  Ok (map fst entries, map snd entries).

(** [write_labels_file]: the path of the label file and the rows
    [np.savetxt(..., fmt='%s')] writes, one per label. *)
Definition write_labels_file (condition_labels : list string)
    (spm_mat_file : string) : string * list string :=
  let label_file := str_replace "SPM.mat" "labels.csv" spm_mat_file in
  (label_file, condition_labels).

(** The branch the cell [if con_per_run:] wires in: the labels of
    [contrast_per_run] go to [write_labels]. *)
Definition per_run_branch (con_per_run : bool)
    (stimuli_order : list (list string)) (condition_names : list string)
    (spm_mat_file : string)
  : result (option (list run_contrast * (string * list string))) :=
  if con_per_run then
    out ← get_contrast_per_run stimuli_order condition_names;
    Ok (Some (out.1, write_labels_file out.2 spm_mat_file))
  else Ok None.

(** ** Iterables and naming substitutions *)

Section Workflow.

Variable num : Type.
(** Python's [str] on a JSON number. *)
Variable str_num : num -> string.

(** An element of a filter setting such as [['LP', 6]] or [[5.0, 100.0]]. *)
Inductive scalar : Type :=
  | SStr (s : string)
  | SNum (x : num).

Definition py_str (v : scalar) : string :=
  match v with
  | SStr s => s
  | SNum x => str_num x
  end.

(** The values an iterable can take. *)
Inductive axis_value : Type :=
  | Subject (s : string)
  | Filter (f : list scalar).

(** [infosource.iterables] followed by [selectfiles.iterables], in the
    order the notebook declares them. *)
Definition iterables (subject_list : list string)
    (filters_temporal filters_spatial : list (list scalar))
  : list (string * list axis_value) :=
  [("subject_id", map Subject subject_list)] ++
  [("tFilter", map Filter filters_temporal);
   ("sFilter", map Filter filters_spatial)].

(** ['.'.join([str(t) for t in f])] *)
Definition filter_id (f : list scalar) : string :=
  String.concat "." (map py_str f).

(** The second comprehension of [substitutions]: one rule per subject,
    temporal filter and spatial filter. *)
Definition branch_substitutions (subject_list : list string)
    (filters_temporal filters_spatial : list (list scalar))
  : list (string * string) :=
  sub ← subject_list;
  t ← map filter_id filters_temporal;
  s ← map filter_id filters_spatial;
  [("sub-" +:+ sub +:+ "_sFilter_" +:+ s +:+ "_tFilter_" +:+ t +:+ "/",
    "sub-" +:+ sub +:+ "_sFilter_" +:+ s +:+ "_tFilter_" +:+ t +:+ "_")].

(** The list [substitutions] of the datasink. *)
Definition substitutions (postfix : string) (subject_list : list string)
    (filters_temporal filters_spatial : list (list scalar))
    (n_contrast_list : nat) : list (string * string) :=
  map (fun sub => ("_subject_id_" +:+ sub +:+ "/_",
                   postfix +:+ "/sub-" +:+ sub +:+ "/sub-" +:+ sub +:+ "_"))
      subject_list
  ++ branch_substitutions subject_list filters_temporal filters_spatial
  ++ map (fun c => ("_normfunc" +:+ decimal c +:+ "/", EmptyString)) (seq 0 n_contrast_list)
  ++ map (fun c => ("_normfunc_run" +:+ decimal c +:+ "/", EmptyString)) (seq 0 1000)
  ++ [("multivariate/" +:+ postfix, postfix +:+ "/multivariate")]
  ++ [("univariate/" +:+ postfix, postfix +:+ "/univariate")].

(** [filters_temporal[0][1]], the high-pass cutoff given to [modelspec]. *)
Definition high_pass_filter_cutoff (filters_temporal : list (list scalar))
  : result scalar :=
  f ← py_index filters_temporal 0;
  py_index f 1.

(** The options of [analysis-1stlevel_specs.json] these cells read. *)
Record specs : Type := Specs {
  subject_list : list string;
  task_id : string;
  analysis_postfix : string;
  filters_spatial : list (list scalar);
  filters_temporal : list (list scalar);
  nuisance_regressors : list string;
  use_outliers : bool;
  normalize : bool;
  con_per_run : bool;
  n_parallel_jobs : nat;
  condition_names : list string;
  contrasts : list (con_spec num)
}.

(** What the notebook has built when it reaches [analysis_1st.run]. *)
Record workflow : Type := Workflow {
  w_TR : num;
  w_contrast_list : list (contrast num);
  w_cutoff : scalar;
  w_iterables : list (string * list axis_value);
  w_substitutions : list (string * string);
  w_use_outliers : bool;
  w_normalize : bool;
  w_con_per_run : bool;
  w_n_procs : nat
}.

(** The cells up to and including "Create 1st-Level Analysis Workflow":
    what their own expressions read and compute from the metadata and the
    specification, and the exceptions these expressions raise. Constructing
    a node also runs nipype's checks on the values it is handed (the traits
    of an interface, the template image): those are not part of the
    notebook, they come on top of what is raised here, and [Ok] stands for
    "nothing raised by the cells' own expressions". *)
Definition build_workflow (fs : json_files num) (sp : specs) : result workflow :=
  TR ← get_TR fs (task_id sp);
  contrast_list ← contrast_list (condition_names sp) (contrasts sp);
  cutoff ← high_pass_filter_cutoff (filters_temporal sp);
  Ok (Workflow TR contrast_list cutoff
        (iterables (subject_list sp) (filters_temporal sp) (filters_spatial sp))
        (substitutions (analysis_postfix sp) (subject_list sp)
           (filters_temporal sp) (filters_spatial sp) (length contrast_list))
        (use_outliers sp) (normalize sp) (con_per_run sp)
        (n_parallel_jobs sp)).

(** The engine behind [analysis_1st.run(plugin='MultiProc', ...)] is
    nipype's and is not part of the notebook: it is a parameter, and
    [Outcome] is whatever running the nodes produces. *)
Variable Outcome : Type.
Variable run : workflow -> Outcome.

(** The notebook from its first cell to "Run Workflow". *)
Definition notebook (fs : json_files num) (sp : specs) : result Outcome :=
  w ← build_workflow fs sp;
  Ok (run w).

End Workflow.

Arguments SStr {num} s.
Arguments SNum {num} x.
Arguments py_str {num} _ _.
Arguments Subject {num} s.
Arguments Filter {num} f.
Arguments iterables {num} _ _ _.
Arguments filter_id {num} _ _.
Arguments branch_substitutions {num} _ _ _ _.
Arguments substitutions {num} _ _ _ _ _ _.
Arguments high_pass_filter_cutoff {num} _.
Arguments build_workflow {num} _ _ _.
Arguments Specs {num} _ _ _ _ _ _ _ _ _ _ _ _.
Arguments subject_list {num} _.
Arguments task_id {num} _.
Arguments analysis_postfix {num} _.
Arguments filters_spatial {num} _.
Arguments filters_temporal {num} _.
Arguments nuisance_regressors {num} _.
Arguments use_outliers {num} _.
Arguments normalize {num} _.
Arguments con_per_run {num} _.
Arguments n_parallel_jobs {num} _.
Arguments condition_names {num} _.
Arguments contrasts {num} _.
Arguments Workflow {num} _ _ _ _ _ _ _ _ _.
Arguments w_TR {num} _.
Arguments w_contrast_list {num} _.
Arguments w_cutoff {num} _.
Arguments w_iterables {num} _.
Arguments w_substitutions {num} _.
Arguments notebook {num} _ {Outcome} _ _ _.

(** ** Branch expansion *)

Section Expansion.

Context {V : Type}.

(** Modelled from the spec: the error of section 7 for a malformed
    specification; the notebook defines no exception of its own. *)
Inductive config_error : Type :=
  | ConfigError (msg : string).

(** Modelled from the spec: the Cartesian product of section 4.2, axis
    declaration order first, then the order within each axis; no axis gives
    the one empty binding. The engine that expands the iterables (nipype's,
    behind [analysis_1st.run]) is not among the sources. *)
Fixpoint product (axes : list (string * list V)) : list (list (string * V)) :=
  match axes with
  | [] => [[]]
  | (name, values) :: rest =>
      v ← values; t ← product rest; [(name, v) :: t]
  end.

(** Modelled from the spec: [expand] of section 4.2, which refuses an
    empty axis with [ConfigError] ("empty iterable axis"). The engine that
    expands the iterables is not among the sources. *)
Definition expand (axes : list (string * list V))
  : config_error + list (list (string * V)) :=
  if existsb (fun a => match a.2 with [] => true | _ => false end) axes
  then inl (ConfigError "empty iterable axis")
  else inr (product axes).

(** Modelled from the spec: the branches an expansion instantiates, none
    when it failed. *)
Definition branches (r : config_error + list (list (string * V)))
  : list (list (string * V)) :=
  match r with
  | inl _ => []
  | inr l => l
  end.

End Expansion.

(** ** Names of the contrasts for the plots (cell of [plot_contrasts]) *)

(** [[c[0] for c in contrast_list]] *)
Definition contrast_names {num} (l : list (contrast num)) : list string :=
  map (fun c => match c with
                | TCon t => t_name t
                | FCon name _ _ => name
                end) l.

(** ** Compression of the normalized contrasts ([gzip_contrast]) *)

Section Images.

(** nibabel is not part of the notebook: its two calls are taken as they
    are. [load] and [to_filename] act on the image files in a monad [M] of
    their own (they read, write, raise, or end the process), and [img] is
    what [load] returns. *)
Context {M : Type -> Type} `{!MRet M, !MBind M}.
Variable img : Type.
Variable load : string -> M img.
Variable to_filename : img -> string -> M unit.

Definition gzip_contrast (contrast : string) : M string :=
  let out_file := str_replace ".nii" ".nii.gz" contrast in
  i ← load contrast;
  to_filename i out_file;;
  mret out_file.

End Images.

Arguments gzip_contrast {M _ _ img} _ _ _.

(** ** Selection of the input files ([create_file_path]) *)

(** [s.endswith('/')] *)
Fixpoint ends_with_slash (s : string) : bool :=
  match s with
  | EmptyString => false
  | String c EmptyString => Ascii.eqb c "/"
  | String _ s' => ends_with_slash s'
  end.

(** [os.path.join(a, b)] of [posixpath]. *)
Definition path_join (a b : string) : string :=
  if String.prefix "/" b then b
  else if String.eqb a EmptyString || ends_with_slash a then a +:+ b
  else a +:+ "/" +:+ b.

(** [sorted(l)] on a list of names. *)
Definition sorted_names (l : list string) : list string :=
  sorted_by String.compare id l.

Section SelectFiles.

Variable num : Type.
Variable str_num : num -> string.
(** [glob.glob]: the paths that match a pattern, in the order the file
    system lists them. *)
Variable glob : string -> list string.

Definition path_anat : string := "/data/derivatives/fmriflows/preproc_anat/".
Definition path_func : string := "/data/derivatives/fmriflows/preproc_func/".

Definition transforms_pattern (sub_id : string) : string :=
  path_join (path_join path_anat ("sub-" +:+ sub_id))
            ("sub-" +:+ sub_id +:+ "_transformComposite.h5").

Definition func_pattern (sub_id task_id : string)
    (tFilter sFilter : list (scalar num)) : string :=
  let t_id := String.concat "." (map (py_str str_num) tFilter) in
  let s_id := String.concat "_" (map (py_str str_num) sFilter) +:+ "mm" in
  path_join (path_join path_func ("sub-" +:+ sub_id))
            ("sub-" +:+ sub_id +:+ "_task-" +:+ task_id +:+ "_run-*tFilter_"
             +:+ t_id +:+ "_sFilter_" +:+ s_id +:+ ".nii.gz").

Definition outliers_pattern (sub_id task_id : string) : string :=
  path_join (path_join path_func ("sub-" +:+ sub_id))
            ("sub-" +:+ sub_id +:+ "_task-" +:+ task_id +:+ "_run-*outliers.txt").

Definition confounds_pattern (sub_id task_id : string) : string :=
  path_join (path_join path_func ("sub-" +:+ sub_id))
            ("sub-" +:+ sub_id +:+ "_task-" +:+ task_id +:+ "_run-*confounds.tsv").

(** The outputs [transforms], [func], [outliers] and [confounds]. *)
Record selected_files : Type := SelectedFiles {
  sf_transforms : string;
  sf_func : list string;
  sf_outliers : list string;
  sf_confounds : list string
}.

Definition create_file_path (sub_id task_id : string)
    (tFilter sFilter : list (scalar num)) : result selected_files :=
  transforms ← py_index (glob (transforms_pattern sub_id)) 0;
  let func := sorted_names (glob (func_pattern sub_id task_id tFilter sFilter)) in
  let outliers := sorted_names (glob (outliers_pattern sub_id task_id)) in
  let confounds := sorted_names (glob (confounds_pattern sub_id task_id)) in
  Ok (SelectedFiles transforms func outliers confounds).

End SelectFiles.

Arguments func_pattern {num} _ _ _ _ _.
Arguments create_file_path {num} _ _ _ _ _ _.

(** ** Sample inputs *)

Definition example_contrasts : list (con_spec Z) :=
  [ ConSpec "faces > houses" "T" (JArr [JNum 1%Z; JNum (-1)%Z]);
    ConSpec "ignored" "t-test" (JNum 0%Z);
    ConSpec "any effect" "F"
      (JArr [JArr [JNum 1%Z; JNum 0%Z]; JArr [JNum 0%Z; JNum 1%Z]]) ].

Definition example_specs : specs Z :=
  Specs ["01"; "02"] "memory" "main"
        [[SStr "LP"; SNum 6%Z]] [[SNum 5%Z; SNum 100%Z]]
        ["Rotation"; "Translation"] true false true 4
        ["faces"; "houses"] example_contrasts.

Definition example_events : list (string * list (event Z)) :=
  [ ("sub-01_task-memory_run-02_events.tsv",
     [ Event "houses" 12%Z 2%Z; Event "empty" 20%Z 4%Z; Event "faces" 30%Z 2%Z ]);
    ("sub-01_task-memory_run-01_events.tsv",
     [ Event "faces" 10%Z 3%Z; Event "empty" 14%Z 5%Z; Event "faces" 25%Z 3%Z ]) ].

Definition example_nss : list (string * Z) :=
  [ ("sub-01_task-memory_run-02_nss.txt", 6%Z);
    ("sub-01_task-memory_run-01_nss.txt", 4%Z) ].

Definition example_confounds : table Z :=
  [ ("FD", [1; 2]%Z); ("tCompCor00", [3; 4]%Z); ("aCompCor00", [5; 6]%Z) ].

Definition example_tables : gmap string (table Z) :=
  {[ "sub-01_task-memory_run-01_confounds.tsv" := example_confounds ]}.

Definition example_files : json_files Z :=
  {[ func_desc_path "memory" := {[ "RepetitionTime" := 2%Z ]} ]}.

(** * Properties *)

(** ** Integer formatting *)

Lemma to_uint_nonnil (n : nat) : Nat.to_uint n <> Decimal.Nil.
Proof.
  rewrite <- (Unsigned.of_to n) at 1.
  rewrite Unsigned.to_of. apply unorm_nonnil.
Qed.

Lemma read_d_decimal (n : nat) : read_d (decimal n) = Some n.
Proof.
  unfold read_d, decimal.
  rewrite NilZero.usu by apply to_uint_nonnil.
  simpl. f_equal. apply Unsigned.of_to.
Qed.

Lemma of_uint_D0 (d : Decimal.uint) : Nat.of_uint (Decimal.D0 d) = Nat.of_uint d.
Proof. reflexivity. Qed.

Lemma uint_of_string_zeros (k : nat) (s : string) :
  NilEmpty.uint_of_string (zeros k +:+ s)
  = Nat.iter k (fun d => Decimal.D0 d) <$> NilEmpty.uint_of_string s.
Proof.
  induction k as [|k IH].
  - change (zeros 0 +:+ s) with s.
    destruct (NilEmpty.uint_of_string s); reflexivity.
  - change (zeros (S k) +:+ s) with (String "0" (zeros k +:+ s)).
    simpl. rewrite IH. destruct (NilEmpty.uint_of_string s); reflexivity.
Qed.

Lemma of_uint_iter_D0 (k : nat) (d : Decimal.uint) :
  Nat.of_uint (Nat.iter k (fun d => Decimal.D0 d) d) = Nat.of_uint d.
Proof. induction k as [|k IH]; simpl; [done | by rewrite of_uint_D0]. Qed.

Lemma read_d_zeros (k : nat) (s : string) (n : nat) :
  read_d s = Some n -> read_d (zeros k +:+ s) = Some n.
Proof.
  unfold read_d, NilZero.uint_of_string. intros H.
  destruct s as [|c s]; [discriminate H|].
  destruct (zeros k +:+ String c s) as [|a t] eqn:E.
  { destruct k; discriminate E. }
  rewrite <- E, uint_of_string_zeros.
  destruct (NilEmpty.uint_of_string (String c s)) as [d|]; simpl in *;
    [|discriminate H].
  rewrite of_uint_iter_D0. exact H.
Qed.

(** The number can be read back from its padded rendering. *)
Lemma read_d_fmt_d (w n : nat) : read_d (fmt_d w n) = Some n.
Proof. unfold fmt_d. apply read_d_zeros, read_d_decimal. Qed.

Lemma fmt_d_inj (w n m : nat) : fmt_d w n = fmt_d w m -> n = m.
Proof.
  intros E. pose proof (read_d_fmt_d w n) as H.
  rewrite E, read_d_fmt_d in H. congruence.
Qed.

Lemma T_con_name_inj (i j : nat) : T_con_name i = T_con_name j -> i = j.
Proof. intros E%(inj (String.app _)). eapply fmt_d_inj, E. Qed.

Lemma zeros_repeat (k : nat) :
  zeros k = string_of_list_ascii (List.repeat "0"%char k).
Proof. induction k as [|k IH]; cbn; [done | by rewrite IH]. Qed.

(** The format string of the cell gives the name the specification words. *)
Lemma T_con_name_positional (i : nat) : T_con_name i = positional_name i.
Proof.
  unfold T_con_name, positional_name, fmt_d, decimal.
  by rewrite zeros_repeat.
Qed.

Example T_con_name_7 : T_con_name 7 = "T_con_0007".
Proof. reflexivity. Qed.

Example T_con_name_123 : T_con_name 123 = "T_con_0123".
Proof. reflexivity. Qed.

(** ** The error monad *)

Lemma bind_Ok {A B} (a : A) (k : A -> result B) : Ok a ≫= k = k a.
Proof. reflexivity. Qed.

Lemma mapM_Ok_map {A B} (f : A -> result B) (g : A -> B) (l : list A) :
  Forall (fun x => f x = Ok (g x)) l -> mapM f l = Ok (map g l).
Proof.
  induction 1 as [|x l Hx _ IH]; [reflexivity|].
  cbn. rewrite Hx. cbn. rewrite IH. reflexivity.
Qed.

Lemma mapM_Ok_Forall2 {A B} (f : A -> result B) (l : list A) (k : list B) :
  mapM f l = Ok k -> Forall2 (fun x y => f x = Ok y) l k.
Proof.
  revert k. induction l as [|x l IH]; intros k; cbn.
  - intros [= <-]. constructor.
  - destruct (f x) as [y|e] eqn:Hx; cbn; [|discriminate].
    destruct (mapM f l) as [ys|e]; cbn; [|discriminate].
    intros [= <-]. constructor; auto.
Qed.

(** ** Resolved contrasts *)

Section ContrastFacts.

Context {num : Type}.
Implicit Types (c : con_spec num) (cs : list (con_spec num)).
Implicit Types (cn : list string) (e : contrast num).

Lemma embedded_length cn (rows : list (json num)) :
  length (embedded cn rows) = length rows.
Proof. apply length_imap. Qed.

Lemma embedded_lookup cn (rows : list (json num)) i row :
  rows !! i = Some row ->
  embedded cn rows !! i = Some (TContrast (T_con_name i) "T" cn row).
Proof. intros H. unfold embedded. rewrite list_lookup_imap, H. reflexivity. Qed.

Lemma f_entry_canonical cn c rows :
  c_type c = "F" -> c_weights c = JArr rows ->
  f_entry cn c = Ok (FCon (c_name c) "F" (embedded cn rows))
  /\ canonical cn c (FCon (c_name c) "F" (embedded cn rows)).
Proof.
  intros Ht Hw. split.
  - unfold f_entry. rewrite Hw, Ht. reflexivity.
  - eapply canonical_F; eauto using embedded_length.
    intros i row Hrow. rewrite <- T_con_name_positional.
    by apply embedded_lookup.
Qed.

Lemma t_entry_canonical cn c :
  c_type c = "T" -> canonical cn c (t_entry cn c).
Proof. intros Ht. unfold t_entry. rewrite Ht. by constructor. Qed.

Lemma filter_other_F cs :
  filter is_F (filter (fun c => is_T c \/ is_F c) cs) = filter is_F cs.
Proof.
  rewrite list_filter_filter. apply list_filter_iff. intros c. tauto.
Qed.

Lemma filter_other_T cs :
  filter is_T (filter (fun c => is_T c \/ is_F c) cs) = filter is_T cs.
Proof.
  rewrite list_filter_filter. apply list_filter_iff. intros c. tauto.
Qed.

Lemma contrast_list_split cn cs l :
  contrast_list cn cs = Ok l ->
  exists fs,
    mapM (f_entry cn) (filter is_F cs) = Ok fs
    /\ l = fs ++ map (t_entry cn) (filter is_T cs).
Proof.
  unfold contrast_list.
  destruct (mapM (f_entry cn) (filter is_F cs)) as [fs|err]; cbn;
    [|discriminate].
  intros [= <-]. eauto.
Qed.

End ContrastFacts.

(** C3. When the weights of every F entry are an array of rows, the
    user-declared contrasts resolve without error, and the resolved list
    corresponds entry by entry to the declared F entries followed by the
    declared T entries, each in its canonical form: a T entry is the quadruple
    (name, 'T', condition names, weights); an F entry is the triple
    (name, 'F', embedded list), the embedded list holding one T contrast per
    weight row, named [T_con_] followed by the row's zero-based index on four
    digits and carrying all condition names with that row. *)
Theorem contrast_list_canonical {num} (condition_names : list string)
    (con_specs : list (con_spec num)) :
  (forall c, c ∈ con_specs -> c_type c = "F" ->
     exists rows, c_weights c = JArr rows) ->
  exists l,
    contrast_list condition_names con_specs = Ok l
    /\ Forall2 (canonical condition_names)
         (filter is_F con_specs ++ filter is_T con_specs) l
    /\ (forall e, e ∈ l <->
          exists c, c ∈ con_specs /\ canonical condition_names c e).
Proof.
  intros Hrows.
  set (g := fun c : con_spec num =>
    match c_weights c with
    | JArr rows => FCon (c_name c) "F" (embedded condition_names rows)
    | JNum _ => FCon (c_name c) "F" []
    end).
  assert (HF : Forall (fun c => f_entry condition_names c = Ok (g c)
                               /\ canonical condition_names c (g c))
                 (filter is_F con_specs)).
  { apply Forall_forall. intros c [Hc Hin]%list_elem_of_filter.
    destruct (Hrows c Hin Hc) as [rows Hw]. unfold g. rewrite Hw.
    by apply f_entry_canonical. }
  assert (HT : Forall2 (canonical condition_names) (filter is_T con_specs)
                 (map (t_entry condition_names) (filter is_T con_specs))).
  { apply Forall2_fmap_r, Forall_Forall2_diag, Forall_forall.
    intros c [Hc _]%list_elem_of_filter. by apply t_entry_canonical. }
  assert (Hall : Forall2 (canonical condition_names)
                   (filter is_F con_specs ++ filter is_T con_specs)
                   (map g (filter is_F con_specs)
                    ++ map (t_entry condition_names) (filter is_T con_specs))).
  { apply Forall2_app; [|exact HT].
    apply Forall2_fmap_r, Forall_Forall2_diag.
    eapply Forall_impl; [exact HF|]. by intros c [_ ?]. }
  eexists. split; [|split; [exact Hall|]].
  - unfold contrast_list.
    rewrite (mapM_Ok_map _ g) by (eapply Forall_impl; [exact HF|]; by intros c [? _]).
    reflexivity.
  - intros e. split.
    + intros He. apply list_elem_of_lookup in He as [i Hi].
      destruct (Forall2_lookup_r _ _ _ _ _ Hall Hi) as (c & Hc & Hcan).
      exists c. split; [|exact Hcan].
      apply list_elem_of_lookup_2 in Hc.
      apply elem_of_app in Hc as [Hc|Hc];
        apply list_elem_of_filter in Hc; tauto.
    + intros (c & Hin & Hcan).
      assert (Hc : c ∈ filter is_F con_specs ++ filter is_T con_specs).
      { apply elem_of_app. inversion Hcan; subst;
          [right|left]; by apply list_elem_of_filter. }
      apply list_elem_of_lookup in Hc as [i Hi].
      destruct (Forall2_lookup_l _ _ _ _ _ Hall Hi) as (e' & He' & Hcan').
      assert (e = e') as ->; [|by eapply list_elem_of_lookup_2].
      clear -Hcan Hcan'.
      inversion Hcan as [Ht|rows tcons Ht Hw Hlen Hrow];
        inversion Hcan' as [Ht'|rows' tcons' Ht' Hw' Hlen' Hrow']; subst;
        try congruence.
      f_equal. rewrite Hw in Hw'. injection Hw' as <-.
      apply list_eq. intros i.
      destruct (rows !! i) as [row|] eqn:Hr.
      * by rewrite (Hrow _ _ Hr), (Hrow' _ _ Hr).
      * apply lookup_ge_None in Hr.
        rewrite !(proj2 (lookup_ge_None _ _)) by lia. reflexivity.
Qed.

Lemma contrast_list_canonical_witness :
  contrast_list ["faces"; "houses"] example_contrasts
  = Ok [ FCon "any effect" "F"
           [ TContrast "T_con_0000" "T" ["faces"; "houses"]
               (JArr [JNum 1%Z; JNum 0%Z]);
             TContrast "T_con_0001" "T" ["faces"; "houses"]
               (JArr [JNum 0%Z; JNum 1%Z]) ];
         TCon (TContrast "faces > houses" "T" ["faces"; "houses"]
                 (JArr [JNum 1%Z; JNum (-1)%Z])) ]
  /\ Forall2 (canonical ["faces"; "houses"])
       (filter is_F example_contrasts ++ filter is_T example_contrasts)
       [ FCon "any effect" "F"
           [ TContrast "T_con_0000" "T" ["faces"; "houses"]
               (JArr [JNum 1%Z; JNum 0%Z]);
             TContrast "T_con_0001" "T" ["faces"; "houses"]
               (JArr [JNum 0%Z; JNum 1%Z]) ];
         TCon (TContrast "faces > houses" "T" ["faces"; "houses"]
                 (JArr [JNum 1%Z; JNum (-1)%Z])) ].
Proof.
  destruct (contrast_list_canonical ["faces"; "houses"] example_contrasts)
    as (l & Hl & Hcan & _).
  { intros c Hc Ht. unfold example_contrasts in Hc.
    repeat (apply elem_of_cons in Hc as [->|Hc]);
      [discriminate Ht | discriminate Ht | eexists; reflexivity
      | by apply elem_of_nil in Hc]. }
  vm_compute in Hl. injection Hl as <-. split; [reflexivity | exact Hcan].
Defined.

(** An F entry that gives a bare number for its weights: [enumerate] raises
    TypeError, so this declared list is resolved into no list at all, in
    canonical form or otherwise. *)
Lemma contrast_list_scalar_weights :
  contrast_list ["faces"; "houses"]
    [ ConSpec "faces > houses" "T" (JArr [JNum 1%Z; JNum (-1)%Z]);
      ConSpec "any effect" "F" (JNum 1%Z) ]
  = Raise TypeError
  /\ ~ exists l,
        contrast_list ["faces"; "houses"]
          [ ConSpec "faces > houses" "T" (JArr [JNum 1%Z; JNum (-1)%Z]);
            ConSpec "any effect" "F" (JNum 1%Z) ]
        = Ok l
        /\ Forall2 (canonical ["faces"; "houses"])
             [ ConSpec "any effect" "F" (JNum 1%Z);
               ConSpec "faces > houses" "T" (JArr [JNum 1%Z; JNum (-1)%Z]) ]
             l.
Proof.
  split; [reflexivity|]. intros (l & Hl & _). discriminate Hl.
Qed.

(** C9. An entry whose type is neither 'T' nor 'F' leaves no trace: the
    resolved list (or the exception) is the one obtained with such entries
    removed from the declaration, so no error comes from them and no resolved
    entry stands for them. In a resolved list, every entry carries the type
    'F' or 'T', there are as many F triples as declared F entries and as many
    T quadruples as declared T entries, and every F triple stands before every
    T quadruple, whatever the declaration order. *)
Theorem contrast_list_omits_other {num} (condition_names : list string)
    (con_specs : list (con_spec num)) :
  contrast_list condition_names con_specs
  = contrast_list condition_names
      (filter (fun c => is_T c \/ is_F c) con_specs)
  /\ forall l, contrast_list condition_names con_specs = Ok l ->
       exists fs ts,
         l = fs ++ ts
         /\ length fs = length (filter is_F con_specs)
         /\ length ts = length (filter is_T con_specs)
         /\ Forall (fun e => exists name tcons, e = FCon name "F" tcons) fs
         /\ Forall (fun e => exists t, e = TCon t /\ t_stat t = "T") ts
         /\ (forall i j name stat tcons t,
               l !! i = Some (FCon name stat tcons) ->
               l !! j = Some (TCon t) -> i < j).
Proof.
  split.
  - unfold contrast_list. by rewrite filter_other_F, filter_other_T.
  - intros l (fs & Hfs & ->)%contrast_list_split.
    apply mapM_Ok_Forall2 in Hfs.
    assert (HF : Forall (fun e : contrast num =>
                   exists name tcons, e = FCon name "F" tcons) fs).
    { apply Forall_forall. intros e [i Hi]%list_elem_of_lookup.
      destruct (Forall2_lookup_r _ _ _ _ _ Hfs Hi) as (c & Hc & He).
      apply list_elem_of_lookup_2, list_elem_of_filter in Hc as [Hc _].
      unfold f_entry in He. destruct (py_iter _ _) as [rows|]; cbn in He;
        [|discriminate]. injection He as <-. rewrite Hc. eauto. }
    assert (HT : Forall (fun e : contrast num =>
                   exists t, e = TCon t /\ t_stat t = "T")
                   (map (t_entry condition_names) (filter is_T con_specs))).
    { apply Forall_fmap, Forall_forall.
      intros c [Hc _]%list_elem_of_filter. cbn. eauto. }
    exists fs, (map (t_entry condition_names) (filter is_T con_specs)).
    split_and!; try done.
    + symmetry. by eapply Forall2_length.
    + by rewrite length_map.
    + intros i j name stat tcons t Hi Hj.
      destruct (decide (i < length fs)) as [Hlt|Hge].
      * destruct (decide (j < length fs)) as [Hj'|]; [|lia].
        rewrite lookup_app_l in Hj by done.
        apply list_elem_of_lookup_2 in Hj.
        rewrite Forall_forall in HF.
        destruct (HF _ Hj) as (? & ? & ?). discriminate.
      * rewrite lookup_app_r in Hi by lia.
        apply list_elem_of_lookup_2 in Hi.
        rewrite Forall_forall in HT.
        destruct (HT _ Hi) as (? & ? & ?). discriminate.
Qed.

Lemma contrast_list_omits_other_witness :
  contrast_list ["faces"; "houses"] example_contrasts
  = Ok [ FCon "any effect" "F"
           [ TContrast "T_con_0000" "T" ["faces"; "houses"]
               (JArr [JNum 1%Z; JNum 0%Z]);
             TContrast "T_con_0001" "T" ["faces"; "houses"]
               (JArr [JNum 0%Z; JNum 1%Z]) ];
         TCon (TContrast "faces > houses" "T" ["faces"; "houses"]
                 (JArr [JNum 1%Z; JNum (-1)%Z])) ]
  /\ exists fs ts,
       [ FCon "any effect" "F"
           [ TContrast "T_con_0000" "T" ["faces"; "houses"]
               (JArr [JNum 1%Z; JNum 0%Z]);
             TContrast "T_con_0001" "T" ["faces"; "houses"]
               (JArr [JNum 0%Z; JNum 1%Z]) ];
         TCon (TContrast "faces > houses" "T" ["faces"; "houses"]
                 (JArr [JNum 1%Z; JNum (-1)%Z])) ] = fs ++ ts
       /\ length fs = 1 /\ length ts = 1.
Proof.
  split; [reflexivity|].
  destruct (proj2 (contrast_list_omits_other ["faces"; "houses"]
                     example_contrasts) _ eq_refl)
    as (fs & ts & E & Hf & Ht & _).
  exists fs, ts. split; [exact E|]. split; [exact Hf | exact Ht].
Defined.

(** ** Repetition time *)

Lemma get_TR_Ok {num} (fs : json_files num) (task : string) (v : num) :
  metadata_entry fs task = Some v <-> get_TR fs task = Ok v.
Proof.
  unfold metadata_entry, get_TR, load_json, getitem.
  destruct (fs !! func_desc_path task) as [d|]; cbn; [|split; discriminate].
  destruct (d !! "RepetitionTime") as [w|]; cbn; split; congruence.
Qed.

Lemma get_TR_Raise {num} (fs : json_files num) (task : string) :
  metadata_entry fs task = None ->
  get_TR fs task = Raise (FileNotFoundError (func_desc_path task))
  \/ get_TR fs task = Raise (KeyError "RepetitionTime").
Proof.
  unfold metadata_entry, get_TR, load_json, getitem.
  destruct (fs !! func_desc_path task) as [d|]; cbn; [|auto].
  destruct (d !! "RepetitionTime") as [w|]; cbn; [discriminate | auto].
Qed.

(** C7. When the metadata holds no repetition time for the task id (the
    file [task-<id>_bold.json] is absent, or it has no [RepetitionTime]
    entry), reading the repetition time raises ([FileNotFoundError] in the
    first case, [KeyError] in the second: the configuration-time failures the
    specification calls ConfigError); the exception is not caught, so that
    building the workflow and the whole notebook end with it, and they do so
    whatever the engine is: no node is run. *)
Theorem missing_metadata_is_fatal {num} (str_num : num -> string)
    (fs : json_files num) (sp : specs num) :
  metadata_entry fs (task_id sp) = None ->
  exists e,
    (e = FileNotFoundError (func_desc_path (task_id sp))
     \/ e = KeyError "RepetitionTime")
    /\ get_TR fs (task_id sp) = Raise e
    /\ build_workflow str_num fs sp = Raise e
    /\ forall (Outcome : Type) (run : workflow num -> Outcome),
         notebook str_num run fs sp = Raise e.
Proof.
  intros H.
  assert (exists e, (e = FileNotFoundError (func_desc_path (task_id sp))
                     \/ e = KeyError "RepetitionTime")
                    /\ get_TR fs (task_id sp) = Raise e) as (e & He & Hget).
  { destruct (get_TR_Raise fs _ H) as [E|E]; eauto. }
  assert (Hb : build_workflow str_num fs sp = Raise e).
  { unfold build_workflow. by rewrite Hget. }
  exists e. split_and!; try done.
  intros Outcome run. unfold notebook. by rewrite Hb.
Qed.

Lemma missing_metadata_is_fatal_witness :
  exists e,
    (e = FileNotFoundError "/data/task-memory_bold.json"
     \/ e = KeyError "RepetitionTime")
    /\ get_TR (∅ : json_files Z) "memory" = Raise e
    /\ build_workflow (fun _ => EmptyString) ∅ example_specs = Raise e
    /\ forall (Outcome : Type) (run : workflow Z -> Outcome),
         notebook (fun _ => EmptyString) run ∅ example_specs = Raise e.
Proof.
  apply (missing_metadata_is_fatal (fun _ => EmptyString) ∅ example_specs).
  reflexivity.
Defined.

(** ** Sorting *)

Section SortingFacts.

Context {A K : Type}.
Variable cmp : K -> K -> comparison.
Variable key : A -> K.

Lemma insert_sorted_Permutation (x : A) (l : list A) :
  insert_sorted cmp key x l ≡ₚ x :: l.
Proof.
  induction l as [|y l IH]; cbn; [done|].
  destruct (cmp (key x) (key y)); try done.
  rewrite IH. apply Permutation_swap.
Qed.

Lemma sorted_by_Permutation (l : list A) : sorted_by cmp key l ≡ₚ l.
Proof.
  induction l as [|x l IH]; cbn; [done|].
  by rewrite insert_sorted_Permutation, IH.
Qed.

Lemma sorted_by_length (l : list A) : length (sorted_by cmp key l) = length l.
Proof. apply Permutation_length, sorted_by_Permutation. Qed.

Section Ascending.

Hypothesis le_trans : forall a b c : K,
  cmp a b <> Gt -> cmp b c <> Gt -> cmp a c <> Gt.
Hypothesis le_total : forall a b : K, cmp a b = Gt -> cmp b a <> Gt.

Lemma insert_sorted_sorted (x : A) (l : list A) :
  StronglySorted (key_le cmp key) l -> StronglySorted (key_le cmp key) (insert_sorted cmp key x l).
Proof.
  induction 1 as [|y l Hl IH Hy]; cbn; [repeat constructor|].
  destruct (cmp (key x) (key y)) eqn:E.
  - constructor; [by constructor|]. constructor.
    + unfold key_le. congruence.
    + eapply Forall_impl; [exact Hy|]. intros z Hz. unfold key_le in *.
      eapply le_trans; [|exact Hz]. congruence.
  - constructor; [by constructor|]. constructor.
    + unfold key_le. congruence.
    + eapply Forall_impl; [exact Hy|]. intros z Hz. unfold key_le in *.
      eapply le_trans; [|exact Hz]. congruence.
  - constructor; [exact IH|].
    rewrite insert_sorted_Permutation. constructor; [|exact Hy].
    by apply le_total.
Qed.

Lemma sorted_by_sorted (l : list A) : StronglySorted (key_le cmp key) (sorted_by cmp key l).
Proof.
  induction l as [|x l IH]; cbn; [constructor|].
  by apply insert_sorted_sorted.
Qed.

End Ascending.

Lemma elem_of_insert_unique (z x : A) (l : list A) :
  z ∈ insert_unique cmp key x l -> z = x \/ z ∈ l.
Proof.
  induction l as [|y l IH]; cbn.
  - intros ->%list_elem_of_singleton. by left.
  - destruct (cmp (key x) (key y)).
    + auto.
    + intros [->|H]%elem_of_cons; auto.
    + intros [->|H]%elem_of_cons; [right; left|].
      destruct (IH H) as [->|?]; [by left | by right; right].
Qed.

Section Strict.

Hypothesis lt_trans : forall a b c : K,
  cmp a b = Lt -> cmp b c = Lt -> cmp a c = Lt.
Hypothesis gt_lt : forall a b : K, cmp a b = Gt -> cmp b a = Lt.
Hypothesis eq_eq : forall a b : K, cmp a b = Eq <-> a = b.

Lemma insert_unique_sorted (x : A) (l : list A) :
  StronglySorted (key_lt cmp key) l -> StronglySorted (key_lt cmp key) (insert_unique cmp key x l).
Proof.
  induction 1 as [|y l Hl IH Hy]; cbn; [repeat constructor|].
  destruct (cmp (key x) (key y)) eqn:E.
  - by constructor.
  - constructor; [by constructor|]. constructor; [exact E|].
    eapply Forall_impl; [exact Hy|]. intros z Hz. unfold key_lt in *.
    by eapply lt_trans.
  - constructor; [exact IH|].
    apply Forall_forall. intros z [->|Hz]%elem_of_insert_unique.
    + by apply gt_lt.
    + rewrite Forall_forall in Hy. by apply Hy.
Qed.

Lemma sort_unique_sorted (l : list A) :
  StronglySorted (key_lt cmp key) (sort_unique cmp key l).
Proof.
  induction l as [|x l IH]; cbn; [constructor|].
  by apply insert_unique_sorted.
Qed.

Lemma key_lt_irrefl (a : A) : ~ key_lt cmp key a a.
Proof.
  unfold key_lt. rewrite (proj2 (eq_eq (key a) (key a)) eq_refl). discriminate.
Qed.

Lemma sort_unique_NoDup (l : list A) : NoDup (sort_unique cmp key l).
Proof.
  pose proof (sort_unique_sorted l) as H.
  induction H as [|y k Hk IH Hy]; constructor; [|exact IH].
  intros Hin. rewrite Forall_forall in Hy.
  by apply (key_lt_irrefl y), Hy.
Qed.

Lemma insert_unique_keys (k : K) (x : A) (l : list A) :
  k ∈ map key (insert_unique cmp key x l) <-> k = key x \/ k ∈ map key l.
Proof.
  induction l as [|y l IH]; cbn.
  - rewrite list_elem_of_singleton, elem_of_nil. tauto.
  - destruct (cmp (key x) (key y)) eqn:E; cbn.
    + apply eq_eq in E. rewrite elem_of_cons. split; [tauto|].
      intros [->|?]; [left; exact E | done].
    + rewrite !elem_of_cons. tauto.
    + rewrite !elem_of_cons, IH. tauto.
Qed.

Lemma sort_unique_keys (k : K) (l : list A) :
  k ∈ map key (sort_unique cmp key l) <-> k ∈ map key l.
Proof.
  induction l as [|x l IH]; cbn; [done|].
  rewrite insert_unique_keys, IH, elem_of_cons. tauto.
Qed.

End Strict.

End SortingFacts.

(** The order on names and on run numbers. *)

Lemma string_cmp_le (a b : string) : String.compare a b <> Gt <-> String.le a b.
Proof.
  unfold String.le, String.leb.
  destruct (String.compare a b); cbn; split; (done || congruence || tauto).
Qed.

Lemma string_le_trans (a b c : string) :
  String.compare a b <> Gt -> String.compare b c <> Gt -> String.compare a c <> Gt.
Proof. rewrite !string_cmp_le. apply transitivity. Qed.

Lemma string_gt_lt (a b : string) : String.compare a b = Gt -> String.compare b a = Lt.
Proof. rewrite (String.compare_antisym b a). by intros ->. Qed.

Lemma string_le_total (a b : string) :
  String.compare a b = Gt -> String.compare b a <> Gt.
Proof. intros H%string_gt_lt. congruence. Qed.

Lemma string_cmp_eq (a b : string) : String.compare a b = Eq <-> a = b.
Proof.
  split; [apply String.compare_eq_iff|]. intros ->.
  pose proof (String.compare_antisym b b) as H.
  destruct (String.compare b b); (done || discriminate H).
Qed.



Lemma nat_lt_trans (a b c : nat) :
  Nat.compare a b = Lt -> Nat.compare b c = Lt -> Nat.compare a c = Lt.
Proof. rewrite !Nat.compare_lt_iff. lia. Qed.

Lemma nat_gt_lt (a b : nat) : Nat.compare a b = Gt -> Nat.compare b a = Lt.
Proof. rewrite Nat.compare_gt_iff, Nat.compare_lt_iff. lia. Qed.

Lemma sorted_files_Permutation {C} (l : list (string * C)) : sorted_files l ≡ₚ l.
Proof. apply sorted_by_Permutation. Qed.

Lemma sorted_files_length {C} (l : list (string * C)) :
  length (sorted_files l) = length l.
Proof. apply sorted_by_length. Qed.

(** The files come in ascending order of their names. *)
Lemma sorted_files_sorted {C} (l : list (string * C)) :
  StronglySorted (fun a b => String.le a.1 b.1) (sorted_files l).
Proof.
  pose proof (sorted_by_sorted String.compare fst string_le_trans
                string_le_total l) as H.
  fold (sorted_files l) in H.
  induction H as [|a k Hk IH Ha]; constructor; [exact IH|].
  eapply Forall_impl; [exact Ha|]. intros b. apply string_cmp_le.
Qed.

Lemma unique_strings_elem (s : string) (l : list string) :
  s ∈ unique_strings l <-> s ∈ l.
Proof.
  pose proof (sort_unique_keys String.compare id string_cmp_eq s l) as H.
  by rewrite !list_fmap_id in H.
Qed.


Lemma np_unique_elem (n : nat) (l : list nat) : n ∈ np_unique l <-> n ∈ l.
Proof.
  pose proof (sort_unique_keys Nat.compare id Nat.compare_eq_iff n l) as H.
  by rewrite !list_fmap_id in H.
Qed.

Lemma np_unique_NoDup (l : list nat) : NoDup (np_unique l).
Proof.
  apply (sort_unique_NoDup Nat.compare id nat_lt_trans nat_gt_lt
           Nat.compare_eq_iff).
Qed.

(** ** Subject information *)

Section SubjectInfoFacts.

Context {num : Type}.
Variable sub : num -> num -> num.
Implicit Types (trialinfo : list (event num)) (nss : num).
Implicit Types (event_files : list (string * list (event num))).
Implicit Types (nss_files : list (string * num)).

Lemma groups_not_empty {B} (F : string -> B) (keys : list string) :
  filter (fun g : string * B => g.1 ≠ "empty") (map (fun k => (k, F k)) keys)
  = map (fun k => (k, F k)) (filter (fun k => k ≠ "empty") keys).
Proof.
  induction keys as [|k keys IH]; [done|].
  change (map (fun k => (k, F k)) (k :: keys))
    with ((k, F k) :: map (fun k => (k, F k)) keys).
  rewrite (filter_cons _ (k, F k)), (filter_cons _ k), IH.
  cbv beta. cbn [fst]. by destruct (decide (k ≠ "empty")).
Qed.

Lemma run_bunch_conditions nss trialinfo :
  conditions (run_bunch sub nss trialinfo)
  = filter (fun k => k ≠ "empty") (unique_strings (map condition trialinfo)).
Proof.
  unfold run_bunch, groupby. cbn [conditions]. rewrite groups_not_empty.
  rewrite map_map. apply map_id.
Qed.

Lemma run_bunch_onsets nss trialinfo :
  onsets (run_bunch sub nss trialinfo)
  = map (fun c => map (fun r => sub (onset r) nss) (rows_of c trialinfo))
        (conditions (run_bunch sub nss trialinfo)).
Proof.
  rewrite run_bunch_conditions. unfold run_bunch, groupby.
  cbn [onsets durations]. rewrite groups_not_empty. by rewrite map_map.
Qed.

Lemma run_bunch_durations nss trialinfo :
  durations (run_bunch sub nss trialinfo)
  = map (fun c => map duration (rows_of c trialinfo))
        (conditions (run_bunch sub nss trialinfo)).
Proof.
  rewrite run_bunch_conditions. unfold run_bunch, groupby.
  cbn [onsets durations]. rewrite groups_not_empty. by rewrite map_map.
Qed.

Lemma run_bunch_condition_iff nss trialinfo (c : string) :
  c ∈ conditions (run_bunch sub nss trialinfo)
  <-> c ≠ "empty" /\ c ∈ map condition trialinfo.
Proof.
  rewrite run_bunch_conditions, list_elem_of_filter, unique_strings_elem. tauto.
Qed.

(** What the loop has appended when it ends normally. *)
Lemma subjectinfo_loop_Ok nss_files event_files :
  forall i subject_info stimuli_order r,
    subjectinfo_loop sub nss_files i event_files subject_info stimuli_order
    = Ok r ->
    exists bs,
      r = (subject_info ++ bs,
           stimuli_order ++ map (fun f => map condition f.2) event_files)
      /\ length bs = length event_files
      /\ forall k f, event_files !! k = Some f ->
           exists n, nss_files !! (i + k) = Some n
                     /\ bs !! k = Some (run_bunch sub n.2 f.2).
Proof.
  induction event_files as [|f rest IH]; intros i si so r; cbn.
  - intros [= <-]. exists []. rewrite !app_nil_r. split_and!; [done..|].
    intros k f Hk. by rewrite lookup_nil in Hk.
  - unfold py_index. destruct (nss_files !! i) as [n|] eqn:Hn; cbn;
      [|discriminate].
    intros (bs & -> & Hlen & Hbs)%IH.
    exists (run_bunch sub n.2 f.2 :: bs).
    rewrite <- !app_assoc. cbn. split_and!; [done | by rewrite Hlen |].
    intros [|k] g Hk; cbn in *.
    + injection Hk as <-. rewrite Nat.add_0_r. eauto.
    + destruct (Hbs k g Hk) as (m & Hm & Hb).
      exists m. split; [|done]. by rewrite <- Nat.add_succ_comm.
Qed.

(** The loop ends normally when every run has an offset file. *)
Lemma subjectinfo_loop_total nss_files event_files :
  forall i subject_info stimuli_order,
    i + length event_files <= length nss_files ->
    exists r,
      subjectinfo_loop sub nss_files i event_files subject_info stimuli_order
      = Ok r.
Proof.
  induction event_files as [|f rest IH]; intros i si so Hlen; cbn in *.
  - eauto.
  - unfold py_index.
    destruct (lookup_lt_is_Some_2 nss_files i) as [n ->]; [lia|]. cbn.
    apply IH. lia.
Qed.

(** With an offset file missing, the run's lookup raises. *)
Lemma subjectinfo_loop_short nss_files event_files :
  forall i subject_info stimuli_order,
    length nss_files < i + length event_files ->
    length nss_files >= i ->
    subjectinfo_loop sub nss_files i event_files subject_info stimuli_order
    = Raise IndexError.
Proof.
  induction event_files as [|f rest IH]; intros i si so Hlen Hi; cbn in *.
  - lia.
  - unfold py_index. destruct (nss_files !! i) as [n|] eqn:Hn; cbn.
    + apply lookup_lt_Some in Hn. apply IH; lia.
    + done.
Qed.

End SubjectInfoFacts.

(** C5. With an offset file for every run, [subjectinfo] returns one Bunch per
    event file. Both file lists are sorted by name (each sorted list holds the
    files [glob] matched, in ascending order of their names) and paired by
    position: for the [i]-th event file and the [i]-th offset file, the onsets
    the Bunch gives for a condition are the onsets of that condition's rows of
    the event table, each minus the run's offset value, and the durations are
    those rows' durations as they stand. *)
Theorem subjectinfo_onsets_shifted {num} (sub : num -> num -> num)
    (event_glob : list (string * list (event num)))
    (nss_glob : list (string * num)) :
  length event_glob <= length nss_glob ->
  (sorted_files event_glob ≡ₚ event_glob
   /\ StronglySorted (fun a b => String.le a.1 b.1) (sorted_files event_glob))
  /\ (sorted_files nss_glob ≡ₚ nss_glob
      /\ StronglySorted (fun a b => String.le a.1 b.1) (sorted_files nss_glob))
  /\ exists subject_info stimuli_order,
    subjectinfo sub event_glob nss_glob = Ok (subject_info, stimuli_order)
    /\ length subject_info = length event_glob
    /\ forall i f, sorted_files event_glob !! i = Some f ->
         exists n b,
           sorted_files nss_glob !! i = Some n
           /\ subject_info !! i = Some b
           /\ onsets b
              = map (fun c => map (fun r => sub (onset r) n.2) (rows_of c f.2))
                    (conditions b)
           /\ durations b
              = map (fun c => map duration (rows_of c f.2)) (conditions b).
Proof.
  intros Hlen.
  split; [split; [apply sorted_files_Permutation | apply sorted_files_sorted]|].
  split; [split; [apply sorted_files_Permutation | apply sorted_files_sorted]|].
  unfold subjectinfo.
  destruct (subjectinfo_loop_total sub (sorted_files nss_glob)
              (sorted_files event_glob) 0 [] []) as [r Hr].
  { rewrite !sorted_files_length. lia. }
  rewrite Hr.
  apply subjectinfo_loop_Ok in Hr as (bs & -> & Hbs & Hrun).
  exists bs, (map (fun f => map condition f.2) (sorted_files event_glob)).
  split_and!; [done | by rewrite Hbs, sorted_files_length |].
  intros i f Hf. destruct (Hrun i f Hf) as (n & Hn & Hb).
  exists n, (run_bunch sub n.2 f.2).
  split_and!; [done | done | apply run_bunch_onsets | apply run_bunch_durations].
Qed.

Lemma subjectinfo_onsets_shifted_witness :
  subjectinfo Z.sub example_events example_nss
  = Ok ([ Bunch ["faces"] [[6%Z; 21%Z]] [[3%Z; 3%Z]];
          Bunch ["faces"; "houses"] [[24%Z]; [6%Z]] [[2%Z]; [2%Z]] ],
        [ ["faces"; "empty"; "faces"]; ["houses"; "empty"; "faces"] ])
  /\ exists subject_info stimuli_order,
       subjectinfo Z.sub example_events example_nss
       = Ok (subject_info, stimuli_order)
       /\ length subject_info = 2.
Proof.
  split; [reflexivity|].
  destruct (subjectinfo_onsets_shifted Z.sub example_events example_nss)
    as (_ & _ & si & so & E & Hlen & _); [cbn; lia|].
  exists si, so. split; [exact E | exact Hlen].
Defined.

(** C10. Whenever [subjectinfo] returns, no Bunch lists the condition
    'empty': the conditions of a run are the conditions of its event rows
    other than 'empty', and the onsets and durations come one list per listed
    condition, so that those of the 'empty' rows are left out. The returned [stimuli_order] still gives, run by run (event
    files sorted by name), the condition of every event row, 'empty' included,
    in the order of the rows. *)
Theorem empty_condition_excluded {num} (sub : num -> num -> num)
    (event_glob : list (string * list (event num)))
    (nss_glob : list (string * num))
    (subject_info : list (bunch num)) (stimuli_order : list (list string)) :
  subjectinfo sub event_glob nss_glob = Ok (subject_info, stimuli_order) ->
  Forall (fun b => "empty" ∉ conditions b) subject_info
  /\ (forall i f b,
        sorted_files event_glob !! i = Some f -> subject_info !! i = Some b ->
        (forall c, c ∈ conditions b <-> c ≠ "empty" /\ c ∈ map condition f.2)
        /\ length (onsets b) = length (conditions b)
        /\ durations b
           = map (fun c => map duration (rows_of c f.2)) (conditions b))
  /\ stimuli_order = map (fun f => map condition f.2) (sorted_files event_glob).
Proof.
  unfold subjectinfo.
  intros (bs & [= -> ->] & Hlen & Hrun)%subjectinfo_loop_Ok.
  cbn [app]. split_and!; [| |done].
  - apply Forall_forall. intros b [i Hi]%list_elem_of_lookup.
    destruct (lookup_lt_is_Some_2 (sorted_files event_glob) i) as [f Hf].
    { rewrite <- Hlen. by eapply lookup_lt_Some. }
    destruct (Hrun i f Hf) as (n & _ & Hb). cbn in Hb.
    rewrite Hi in Hb. injection Hb as ->.
    rewrite run_bunch_condition_iff. tauto.
  - intros i f b Hf Hi.
    destruct (Hrun i f Hf) as (n & _ & Hb). cbn in Hb.
    rewrite Hi in Hb. injection Hb as ->.
    split_and!.
    + intros c. apply run_bunch_condition_iff.
    + by rewrite run_bunch_onsets, length_map.
    + apply run_bunch_durations.
Qed.

Lemma empty_condition_excluded_witness :
  Forall (fun b : bunch Z => "empty" ∉ conditions b)
    [ Bunch ["faces"] [[6%Z; 21%Z]] [[3%Z; 3%Z]];
      Bunch ["faces"; "houses"] [[24%Z]; [6%Z]] [[2%Z]; [2%Z]] ]
  /\ [ ["faces"; "empty"; "faces"]; ["houses"; "empty"; "faces"] ]
     = map (fun f => map condition f.2) (sorted_files example_events).
Proof.
  destruct (empty_condition_excluded Z.sub example_events example_nss
              [ Bunch ["faces"] [[6%Z; 21%Z]] [[3%Z; 3%Z]];
                Bunch ["faces"; "houses"] [[24%Z]; [6%Z]] [[2%Z]; [2%Z]] ]
              [ ["faces"; "empty"; "faces"]; ["houses"; "empty"; "faces"] ]
              eq_refl) as (H1 & _ & H3).
  split; [exact H1 | exact H3].
Defined.

(** ** Nuisance regressors *)

Lemma string_app_cons (c : ascii) (s t : string) :
  String c s +:+ t = String c (s +:+ t).
Proof. reflexivity. Qed.

Lemma prefix_app (n k : string) :
  String.prefix n k = true <-> exists b, k = n +:+ b.
Proof.
  revert k. induction n as [|c n IH]; intros k.
  - split; [intros _; by exists k | by destruct k].
  - destruct k as [|d k]; cbn.
    + split; [done | intros [b Hb]; discriminate Hb].
    + destruct (ascii_dec c d) as [->|Hne].
      * rewrite IH. split; intros [b Hb]; exists b.
        -- by rewrite string_app_cons, Hb.
        -- rewrite string_app_cons in Hb. congruence.
      * split; [done|]. intros [b Hb]. rewrite string_app_cons in Hb. congruence.
Qed.

Lemma substringb_nil (n : string) :
  substringb n EmptyString = String.prefix n EmptyString || false.
Proof. reflexivity. Qed.

Lemma substringb_cons (n : string) (d : ascii) (k : string) :
  substringb n (String d k) = String.prefix n (String d k) || substringb n k.
Proof. reflexivity. Qed.

(** [substringb n k] holds exactly when [n] occurs inside [k]. *)
Lemma substringb_spec (n k : string) :
  substringb n k = true <-> exists a b, k = a +:+ n +:+ b.
Proof.
  induction k as [|d k IH].
  - rewrite substringb_nil, orb_false_r, prefix_app. split.
    + intros [b Hb]. by exists EmptyString, b.
    + intros (a & b & H). destruct a; [by exists b | discriminate H].
  - rewrite substringb_cons, orb_true_iff, IH, prefix_app. split.
    + intros [[b Hb]|(a & b & Hab)].
      * by exists EmptyString, b.
      * exists (String d a), b. by rewrite string_app_cons, Hab.
    + intros ([|c a] & b & H).
      * left. by exists b.
      * right. rewrite string_app_cons in H. injection H as _ ->. eauto.
Qed.

Lemma string_length_app (s t : string) :
  String.length (s +:+ t) = String.length s + String.length t.
Proof.
  induction s as [|c s IH]; [done|].
  rewrite string_app_cons. cbn. by rewrite IH.
Qed.

Lemma string_app_inj_r (x s t : string) : s +:+ x = t +:+ x -> s = t.
Proof.
  intros E.
  assert (Hlen : String.length s = String.length t).
  { apply (f_equal String.length) in E. rewrite !string_length_app in E. lia. }
  revert t E Hlen. induction s as [|c s IH]; intros [|d t] E Hlen;
    try done.
  rewrite !string_app_cons in E. injection E as -> E.
  f_equal. apply IH; [done|]. cbn in Hlen. lia.
Qed.

Lemma regressor_path_inj (cwd : string) (i j : nat) :
  regressor_path cwd i = regressor_path cwd j -> i = j.
Proof.
  unfold regressor_path, opj.
  intros E%(inj (String.app _))%(inj (String.app _))%(inj (String.app _)).
  by apply string_app_inj_r, fmt_d_inj in E.
Qed.

Section NuisanceFacts.

Context {num : Type}.
Implicit Types (df : table num) (nuisance : list string).
Implicit Types (written : gmap string (list (list num))).

Lemma selection_row nuisance (k : string) :
  (n ← nuisance; if substringb n k then [k] else [])
  = replicate (hits nuisance k) k.
Proof.
  unfold hits. induction nuisance as [|n nuisance IH]; [done|].
  rewrite bind_cons, IH, filter_cons.
  destruct (substringb n k); by case_decide.
Qed.

Lemma selection_hits (keys : list string) nuisance :
  selection keys nuisance = k ← keys; replicate (hits nuisance k) k.
Proof.
  unfold selection. induction keys as [|k keys IH]; [done|].
  by rewrite !bind_cons, IH, selection_row.
Qed.

(** A header is selected exactly when it contains one of the selectors. *)
Lemma elem_of_selection (keys : list string) nuisance (k : string) :
  k ∈ selection keys nuisance
  <-> k ∈ keys /\ exists n, n ∈ nuisance /\ substringb n k = true.
Proof.
  unfold selection. rewrite list_elem_of_bind. split.
  - intros (k' & (n & Hn & Hin)%list_elem_of_bind & Hk').
    destruct (substringb n k') eqn:E; [|by apply elem_of_nil in Hn].
    apply list_elem_of_singleton in Hn as ->. eauto.
  - intros (Hk & n & Hn & E). exists k. split; [|done].
    apply list_elem_of_bind. exists n. rewrite E. split; [|done].
    by apply list_elem_of_singleton.
Qed.

Lemma selection_columns df nuisance :
  selection (map fst df) nuisance
  = map fst (c ← df; replicate (hits nuisance c.1) c).
Proof.
  rewrite selection_hits. induction df as [|c df IH]; [done|].
  cbn [map]. rewrite !bind_cons, map_app, IH. f_equal.
  generalize (hits nuisance c.1). intros m.
  induction m as [|m IHm]; cbn; [done | by rewrite IHm].
Qed.

Lemma regressor_columns_snd df nuisance :
  map snd (c ← df; replicate (hits nuisance c.1) c)
  = regressor_columns df nuisance.
Proof.
  unfold regressor_columns. induction df as [|c df IH]; [done|].
  rewrite !bind_cons, map_app, IH. f_equal.
  generalize (hits nuisance c.1). intros m.
  induction m as [|m IHm]; cbn; [done | by rewrite IHm].
Qed.

Lemma column_NoDup df (c : string * list num) :
  NoDup (map fst df) -> c ∈ df -> column df c.1 = Ok c.
Proof.
  intros Hnd Hc. unfold column.
  destruct (list_find (fun x => x.1 = c.1) df) as [[i x]|] eqn:E.
  - apply list_find_Some in E as (Hi & Hx & _).
    apply list_elem_of_lookup in Hc as [j Hj].
    assert (i = j) as ->; [|congruence].
    eapply NoDup_lookup; [exact Hnd| |].
    + rewrite list_lookup_fmap, Hi. reflexivity.
    + rewrite list_lookup_fmap, Hj. cbn. by rewrite Hx.
  - exfalso. eapply list_find_None in E. rewrite Forall_forall in E.
    by apply (E c).
Qed.

Lemma mapM_fst_Ok {B} (f : string -> result (string * B))
    (L : list (string * B)) :
  Forall (fun c => f c.1 = Ok c) L -> mapM f (map fst L) = Ok L.
Proof.
  induction 1 as [|c L Hc _ IH]; [done|].
  cbn. rewrite Hc. cbn. by rewrite IH.
Qed.

Lemma select_columns_Ok df nuisance :
  NoDup (map fst df) ->
  exists dfs,
    select_columns df (selection (map fst df) nuisance) = Ok dfs
    /\ map snd dfs = regressor_columns df nuisance.
Proof.
  intros Hnd. exists (c ← df; replicate (hits nuisance c.1) c).
  split; [|apply regressor_columns_snd].
  unfold select_columns. rewrite selection_columns. apply mapM_fst_Ok.
  apply Forall_forall. intros c (c' & Hc & Hin)%list_elem_of_bind.
  apply elem_of_replicate in Hc as [-> _]. by apply column_NoDup.
Qed.

End NuisanceFacts.

Lemma regressors_loop_Ok {num} (cwd : string) (tables : gmap string (table num))
    (nuisance : list string) (confounds : list string) :
  forall i regressor_files written,
    Forall (fun c => exists df, tables !! c = Some df /\ NoDup (map fst df))
           confounds ->
    exists written',
      regressors_loop cwd tables nuisance i confounds regressor_files written
      = Ok (regressor_files
              ++ map (regressor_path cwd) (seq i (length confounds)), written')
      /\ (forall k c df,
            confounds !! k = Some c -> tables !! c = Some df ->
            written' !! regressor_path cwd (i + k)
            = Some (regressor_columns df nuisance))
      /\ (forall p,
            (forall k, k < length confounds -> p ≠ regressor_path cwd (i + k)) ->
            written' !! p = written !! p).
Proof.
  induction confounds as [|c rest IH]; intros i files written Hall.
  - exists written. cbn. rewrite app_nil_r. split_and!; [done| |done].
    intros k c df Hk. by rewrite lookup_nil in Hk.
  - apply Forall_cons in Hall as [(df & Hdf & Hnd) Hall].
    destruct (select_columns_Ok df nuisance Hnd) as (dfs & Hsel & Hcols).
    cbn [regressors_loop]. rewrite Hdf, bind_Ok, Hsel, bind_Ok.
    destruct (IH (S i) (files ++ [regressor_path cwd i])
                (<[regressor_path cwd i := map snd dfs]> written) Hall)
      as (written' & -> & Hw & Hother).
    exists written'. split_and!.
    + by rewrite <- app_assoc.
    + intros [|k] c' df' Hk Hc'; cbn in Hk.
      * assert (c' = c) as -> by congruence.
        assert (df' = df) as -> by congruence.
        rewrite Nat.add_0_r, Hother.
        -- by rewrite lookup_insert_eq, Hcols.
        -- intros k _ E%regressor_path_inj. lia.
      * rewrite <- Nat.add_succ_comm. by eapply Hw.
    + intros p Hp. rewrite Hother.
      * apply lookup_insert_ne. intros E. apply (Hp 0); [cbn; lia|].
        by rewrite Nat.add_0_r.
      * intros k Hk. rewrite Nat.add_succ_comm. apply Hp. cbn. lia.
Qed.

(** C6, as the code has it. When every confound file can be read and its
    headers are distinct, the builder returns one regressor file per confound
    file, [confounds_%02d.rst] numbered by position, and the file of the
    [i]-th table holds the table's columns in table order, each once per
    selector its header contains: a column is written exactly when its header
    contains at least one selector as a substring, and exactly once when its
    header contains exactly one of them. Files written before under other
    names are left as they were. *)
Theorem nuisance_regressors_columns {num} (cwd : string)
    (tables : gmap string (table num))
    (written : gmap string (list (list num)))
    (confounds nuisance_regressors : list string) :
  Forall (fun c => exists df, tables !! c = Some df /\ NoDup (map fst df))
         confounds ->
  exists regressor_files written',
    create_nuisance_regressors cwd tables written confounds nuisance_regressors
    = Ok (regressor_files, written')
    /\ length regressor_files = length confounds
    /\ (forall i c df,
          confounds !! i = Some c -> tables !! c = Some df ->
          regressor_files !! i = Some (regressor_path cwd i)
          /\ written' !! regressor_path cwd i
             = Some (regressor_columns df nuisance_regressors)
          /\ (forall k, k ∈ selection (map fst df) nuisance_regressors
                <-> k ∈ map fst df
                    /\ exists n, n ∈ nuisance_regressors
                                 /\ exists a b, k = a +:+ n +:+ b)
          /\ ((forall col, col ∈ df -> hits nuisance_regressors col.1 <= 1) ->
              regressor_columns df nuisance_regressors
              = selected_once df nuisance_regressors))
    /\ (forall p, (forall i, p ≠ regressor_path cwd i) ->
          written' !! p = written !! p).
Proof.
  intros Hall. unfold create_nuisance_regressors.
  destruct (regressors_loop_Ok cwd tables nuisance_regressors confounds 0 []
              written Hall) as (written' & E & Hw & Hother).
  eexists _, written'. split_and!; [exact E | | |].
  - cbn. by rewrite length_map, length_seq.
  - intros i c df Hi Hc. split_and!.
    + cbn. rewrite list_lookup_fmap, lookup_seq_lt; [done|].
      by eapply lookup_lt_Some.
    + by apply (Hw i c df).
    + intros k. rewrite elem_of_selection.
      by setoid_rewrite substringb_spec.
    + intros Hone. unfold regressor_columns, selected_once.
      clear -Hone. induction df as [|col df IH]; [done|].
      rewrite bind_cons, filter_cons, IH
        by (intros ??; apply Hone; by right).
      assert (Hc : hits nuisance_regressors col.1 <= 1) by (apply Hone; by left).
      case_decide.
      * by replace (hits nuisance_regressors col.1) with 1 by lia.
      * by replace (hits nuisance_regressors col.1) with 0 by lia.
  - intros p Hp. apply Hother. intros k _. apply Hp.
Qed.

(** The header [aCompCor00] contains both selectors, and its column is
    written twice. *)
Lemma nuisance_regressors_duplicate :
  exists written',
    create_nuisance_regressors "/wd" example_tables ∅
      ["sub-01_task-memory_run-01_confounds.tsv"] ["CompCor"; "aCompCor"]
    = Ok (["/wd/confounds_00.rst"], written')
    /\ written' !! "/wd/confounds_00.rst" = Some [[3; 4]; [5; 6]; [5; 6]]%Z
    /\ selected_once example_confounds ["CompCor"; "aCompCor"]
       = [[3; 4]; [5; 6]]%Z
    /\ written' !! "/wd/confounds_00.rst"
       ≠ Some (selected_once example_confounds ["CompCor"; "aCompCor"]).
Proof.
  eexists. split; [vm_compute; reflexivity|].
  split; [vm_compute; reflexivity|].
  split; [vm_compute; reflexivity|].
  vm_compute. discriminate.
Qed.

Lemma nuisance_regressors_columns_witness :
  exists regressor_files written',
    create_nuisance_regressors "/wd" example_tables ∅
      ["sub-01_task-memory_run-01_confounds.tsv"] ["CompCor"; "FD"]
    = Ok (regressor_files, written')
    /\ regressor_files = ["/wd/confounds_00.rst"]
    /\ written' !! "/wd/confounds_00.rst" = Some [[1; 2]; [3; 4]; [5; 6]]%Z.
Proof.
  destruct (nuisance_regressors_columns "/wd" example_tables ∅
              ["sub-01_task-memory_run-01_confounds.tsv"] ["CompCor"; "FD"])
    as (files & written' & E & Hlen & Hfile & _).
  { repeat constructor. exists example_confounds. split; [reflexivity|].
    unfold example_confounds. cbn.
    repeat (constructor; [rewrite ?elem_of_cons, ?elem_of_nil;
                          intuition discriminate|]).
    constructor. }
  destruct (Hfile 0 "sub-01_task-memory_run-01_confounds.tsv" example_confounds
              eq_refl eq_refl) as (Hf & Hw & _).
  exists files, written'. split; [exact E|]. split; [|exact Hw].
  destruct files as [|f [|g files]]; [discriminate Hlen | | discriminate Hlen].
  cbn in Hf. injection Hf as ->. reflexivity.
Defined.

(** ** Contrasts per condition and run *)

Lemma bind_singleton_map {A B} (f : A -> B) (l : list A) :
  (x ← l; [f x]) = map f l.
Proof. induction l as [|x l IH]; [done|]. by rewrite bind_cons, IH. Qed.

Lemma length_concat_replicate {B} (block : list B) (n : nat) :
  length (concat (replicate n block)) = n * length block.
Proof.
  induction n as [|n IH]; [done|]. cbn. by rewrite length_app, IH.
Qed.

Lemma lookup_concat_replicate {B} (block : list B) (n k : nat) :
  k < n * length block ->
  concat (replicate n block) !! k = block !! (k mod length block).
Proof.
  revert k. induction n as [|n IH]; intros k Hk; [lia|].
  cbn [replicate concat].
  destruct (decide (k < length block)) as [Hlt|Hge].
  - rewrite lookup_app_l by done. by rewrite Nat.mod_small.
  - rewrite lookup_app_r by lia. rewrite IH by lia. f_equal.
    replace k with ((k - length block) + 1 * length block) at 2 by lia.
    rewrite Nat.Div0.mod_add. reflexivity.
Qed.

Lemma map_lookup_seq {B} (d : B) (l : list B) :
  map (fun i => default d (l !! i)) (seq 0 (length l)) = l.
Proof.
  apply list_eq. intros i. rewrite list_lookup_fmap.
  destruct (decide (i < length l)) as [Hlt|Hge].
  - rewrite lookup_seq_lt by done. cbn.
    destruct (lookup_lt_is_Some_2 l i Hlt) as [x Hx]. by rewrite Hx.
  - rewrite lookup_seq_ge by lia. cbn. symmetry. apply lookup_ge_None. lia.
Qed.

Lemma event_list_pairs (stimuli_order : list (list string)) :
  event_list stimuli_order = imap (fun i l => map (pair i) l) stimuli_order.
Proof.
  unfold event_list. apply imap_ext. intros i l _. cbv beta.
  by rewrite zip_with_replicate_l.
Qed.

Lemma rectangular_lengths {B C} (ll : list (list B)) (kk : list (list C)) :
  map length ll = map length kk -> rectangular ll = rectangular kk.
Proof.
  destruct ll as [|l ll], kk as [|k kk]; try done.
  cbn [map rectangular]. intros [= -> E].
  revert kk E. induction ll as [|l' ll IH]; intros [|k' kk] E; try done.
  cbn in E. injection E as E1 E2. cbn. by rewrite E1, (IH kk E2).
Qed.

Lemma map_length_imap {B C} (f : nat -> list B -> list C) (ll : list (list B)) :
  (forall i l, length (f i l) = length l) ->
  map length (imap f ll) = map length ll.
Proof.
  revert f. induction ll as [|l ll IH]; intros f Hf; [done|].
  rewrite imap_cons. cbn [map]. rewrite Hf. f_equal. apply IH.
  intros i l'. apply Hf.
Qed.

Lemma rectangular_event_list (stimuli_order : list (list string)) :
  rectangular (event_list stimuli_order) = rectangular stimuli_order.
Proof.
  apply rectangular_lengths. rewrite event_list_pairs.
  apply map_length_imap. intros i l. apply length_map.
Qed.

(** A run number is in the first column exactly when the run has events. *)
Lemma elem_of_runs_with_events (stimuli_order : list (list string)) (i : nat) :
  i ∈ runs_with_events stimuli_order
  <-> exists l, stimuli_order !! i = Some l /\ l ≠ [].
Proof.
  unfold runs_with_events. rewrite np_unique_elem, event_list_pairs.
  rewrite list_elem_of_In, in_map_iff. split.
  - intros ([j s] & <- & (ps & Hps & Hin)%in_concat). cbn.
    apply list_elem_of_In, elem_of_lookup_imap in Hps as (k & l & -> & Hl).
    apply in_map_iff in Hin as (s' & [= <- <-] & Hs').
    exists l. split; [done|]. intros ->. by destruct Hs'.
  - intros (l & Hl & Hne). destruct l as [|s l]; [done|].
    exists (i, s). split; [done|]. apply in_concat.
    exists (map (pair i) (s :: l)). split; [|by left].
    apply list_elem_of_In, elem_of_lookup_imap. eauto.
Qed.

Lemma runs_with_events_all (stimuli_order : list (list string)) :
  Forall (fun l => l ≠ []) stimuli_order ->
  length (runs_with_events stimuli_order) = length stimuli_order.
Proof.
  intros Hall.
  transitivity (length (seq 0 (length stimuli_order))); [|apply length_seq].
  apply Permutation_length, NoDup_Permutation.
  - apply np_unique_NoDup.
  - apply NoDup_seq.
  - intros i. rewrite elem_of_runs_with_events, elem_of_seq. split.
    + intros (l & Hl & _). apply lookup_lt_Some in Hl. lia.
    + intros [_ Hi]. destruct (lookup_lt_is_Some_2 stimuli_order i) as [l Hl];
        [lia|]. exists l. split; [done|].
      rewrite Forall_forall in Hall. eapply Hall, list_elem_of_lookup_2, Hl.
Qed.

Lemma runs_with_events_none (stimuli_order : list (list string)) :
  Forall (fun l => l = []) stimuli_order ->
  runs_with_events stimuli_order = [].
Proof.
  intros Hall. destruct (runs_with_events stimuli_order) as [|i r] eqn:E; [done|].
  assert (Hi : i ∈ runs_with_events stimuli_order) by (rewrite E; by left).
  apply elem_of_runs_with_events in Hi as (l & Hl & Hne).
  rewrite Forall_forall in Hall. exfalso. eapply Hne, Hall, list_elem_of_lookup_2, Hl.
Qed.

(** Runs of one length all have events, or none has. *)
Lemma rectangular_cases {B} (ll : list (list B)) :
  rectangular ll = true ->
  Forall (fun l => l ≠ []) ll \/ Forall (fun l => l = []) ll.
Proof.
  destruct ll as [|l ll]; [by left|]. cbn [rectangular].
  rewrite forallb_forall. intros H.
  destruct l as [|x l].
  - right. constructor; [done|]. apply Forall_forall. intros l' Hl'%list_elem_of_In.
    apply H, Nat.eqb_eq in Hl'. by destruct l'.
  - left. constructor; [done|]. apply Forall_forall. intros l' Hl'%list_elem_of_In.
    apply H, Nat.eqb_eq in Hl'. by destruct l'.
Qed.

Lemma run_labels (condition_names : list string) (a n : nat) :
  map (fun ji : nat * nat => default EmptyString (condition_names !! ji.2))
      (j ← seq a n; i ← seq 0 (length condition_names); [(j, i)])
  = concat (replicate n condition_names).
Proof.
  revert a. induction n as [|n IH]; intros a; [done|].
  cbn [seq replicate concat]. rewrite bind_cons, map_app, IH. f_equal.
  rewrite bind_singleton_map, map_map. cbn. apply map_lookup_seq.
Qed.

Lemma run_entries_Ok (condition_names : list string) (n_conditions : nat) :
  exists entries,
    mapM (fun ji => run_entry condition_names (length condition_names)
                      n_conditions ji.1 ji.2)
         (j ← seq 0 n_conditions; i ← seq 0 (length condition_names); [(j, i)])
    = Ok entries
    /\ map snd entries = concat (replicate n_conditions condition_names).
Proof.
  set (g := fun ji : nat * nat =>
    (RunContrast (cont_name (1 + ji.2 + ji.1 * n_conditions)) "T" condition_names
       (indicator (length condition_names) ji.2) (indicator n_conditions ji.1),
     default EmptyString (condition_names !! ji.2))).
  exists (map g (j ← seq 0 n_conditions;
                 i ← seq 0 (length condition_names); [(j, i)])).
  split.
  - apply mapM_Ok_map, Forall_forall.
    intros [j i] (j' & (i' & Hji & Hi')%list_elem_of_bind & _)%list_elem_of_bind.
    apply list_elem_of_singleton in Hji as [= -> ->].
    apply elem_of_seq in Hi' as [_ Hi']. cbn in Hi'.
    destruct (lookup_lt_is_Some_2 condition_names i' Hi') as [x Hx].
    unfold run_entry, py_index, g. cbn [fst snd]. by rewrite Hx.
  - rewrite map_map. apply run_labels.
Qed.

(** C4, as the code has it. With [con_per_run] set and every run listing the
    same number of events, the builder returns [len(condition_names) * r]
    run contrasts, [r] being the number of distinct run numbers among the
    event rows; the label file has that many rows and its [k]-th row is
    [condition_names[k mod len(condition_names)]]. [r] is the number of runs
    when the runs have events, and zero when the event tables are empty. *)
Theorem contrasts_per_run_count (stimuli_order : list (list string))
    (condition_names : list string) (spm_mat_file : string) :
  rectangular stimuli_order = true ->
  exists run_contrasts condition_labels,
    get_contrast_per_run stimuli_order condition_names
    = Ok (run_contrasts, condition_labels)
    /\ per_run_branch true stimuli_order condition_names spm_mat_file
       = Ok (Some (run_contrasts,
                   write_labels_file condition_labels spm_mat_file))
    /\ length run_contrasts
       = length condition_names * length (runs_with_events stimuli_order)
    /\ length (write_labels_file condition_labels spm_mat_file).2
       = length condition_names * length (runs_with_events stimuli_order)
    /\ (forall k,
          k < length condition_names * length (runs_with_events stimuli_order) ->
          (write_labels_file condition_labels spm_mat_file).2 !! k
          = condition_names !! (k mod length condition_names))
    /\ (Forall (fun l => l ≠ []) stimuli_order ->
        length (runs_with_events stimuli_order) = length stimuli_order)
    /\ (Forall (fun l => l = []) stimuli_order ->
        length (runs_with_events stimuli_order) = 0)
    /\ (Forall (fun l => l ≠ []) stimuli_order
        \/ Forall (fun l => l = []) stimuli_order).
Proof.
  intros Hrect.
  destruct (run_entries_Ok condition_names
              (length (runs_with_events stimuli_order)))
    as (entries & Hentries & Hlabels).
  assert (Hget : get_contrast_per_run stimuli_order condition_names
                 = Ok (map fst entries, map snd entries)).
  { unfold get_contrast_per_run, np_reshape_pairs.
    rewrite rectangular_event_list, Hrect, bind_Ok.
    fold (runs_with_events stimuli_order). cbv zeta.
    by rewrite Hentries, bind_Ok. }
  assert (Hlen : length entries
                 = length condition_names
                   * length (runs_with_events stimuli_order)).
  { rewrite <- (length_map snd entries), Hlabels, length_concat_replicate. lia. }
  exists (map fst entries), (map snd entries).
  split_and!.
  - exact Hget.
  - unfold per_run_branch. by rewrite Hget, bind_Ok.
  - by rewrite length_map.
  - cbn. by rewrite length_map.
  - intros k Hk. cbn. rewrite Hlabels.
    apply lookup_concat_replicate. lia.
  - apply runs_with_events_all.
  - intros H. by rewrite runs_with_events_none.
  - by apply rectangular_cases.
Qed.

(** A run whose event table has no rows is not counted: one run and one
    condition give no contrast and no label. *)
Lemma contrasts_per_run_empty_run :
  get_contrast_per_run [[]] ["faces"] = Ok ([], [])
  /\ per_run_branch true [[]] ["faces"] "/wd/SPM.mat"
     = Ok (Some ([], ("/wd/labels.csv", [])))
  /\ length (@nil run_contrast) ≠ length ["faces"] * length [@nil string].
Proof. split_and!; [reflexivity | reflexivity | cbn; lia]. Qed.

Lemma contrasts_per_run_count_witness :
  exists run_contrasts condition_labels,
    get_contrast_per_run [["faces"; "houses"; "empty"]; ["houses"; "faces"; "faces"]]
      ["faces"; "houses"]
    = Ok (run_contrasts, condition_labels)
    /\ length run_contrasts = 4
    /\ condition_labels = ["faces"; "houses"; "faces"; "houses"].
Proof.
  destruct (contrasts_per_run_count
              [["faces"; "houses"; "empty"]; ["houses"; "faces"; "faces"]]
              ["faces"; "houses"] "/wd/SPM.mat" eq_refl)
    as (rc & labels & E & _ & Hlen & _).
  exists rc, labels. split; [exact E|].
  assert (E' := E). vm_compute in E'. injection E' as <- <-.
  split; reflexivity.
Defined.

(** ** Branch expansion *)

Section ExpansionFacts.

Context {V : Type}.
Implicit Types (axes : list (string * list V)).

Lemma length_bind_uniform {A B} (l : list A) (g : A -> list B) (n : nat) :
  (forall y, length (g y) = n) -> length (l ≫= g) = length l * n.
Proof.
  intros Hg. induction l as [|y l IH]; [done|].
  rewrite bind_cons, length_app, Hg, IH. cbn. lia.
Qed.

Lemma lookup_bind_uniform {A B} (l : list A) (g : A -> list B) (n i j : nat)
    (x : A) :
  (forall y, length (g y) = n) -> l !! i = Some x -> j < n ->
  (l ≫= g) !! (i * n + j) = g x !! j.
Proof.
  intros Hg. revert i. induction l as [|y l IH]; intros i Hi Hj; [done|].
  rewrite bind_cons. destruct i as [|i]; cbn in Hi.
  - injection Hi as ->. rewrite lookup_app_l; [done|]. rewrite Hg. lia.
  - rewrite lookup_app_r by (rewrite Hg; cbn; nia).
    rewrite Hg. replace (S i * n + j - n) with (i * n + j) by (cbn; lia).
    by apply IH.
Qed.

Lemma product_cons (name : string) (values : list V) axes :
  product ((name, values) :: axes)
  = v ← values; map (cons (name, v)) (product axes).
Proof.
  cbn [product]. apply list_bind_ext; [|done].
  intros v. apply bind_singleton_map.
Qed.

(** The number of branches is the product of the sizes of the axes. *)
Lemma product_length axes :
  length (product axes) = foldr (fun a n => length a.2 * n) 1 axes.
Proof.
  induction axes as [|[name values] axes IH]; [done|].
  rewrite product_cons. cbn [foldr snd]. rewrite <- IH.
  apply length_bind_uniform. intros v. apply length_map.
Qed.

Lemma expand_empty axes :
  Exists (fun a => a.2 = []) axes ->
  expand axes = inl (ConfigError "empty iterable axis").
Proof.
  intros H. unfold expand.
  rewrite (proj2 (existsb_exists _ _)); [done|].
  apply Exists_exists in H as (a & Ha & Hnil).
  exists a. split; [by apply list_elem_of_In | by rewrite Hnil].
Qed.

Lemma expand_nonempty axes :
  Forall (fun a => a.2 ≠ []) axes -> expand axes = inr (product axes).
Proof.
  intros H. unfold expand.
  destruct (existsb _ axes) eqn:E; [|done].
  apply existsb_exists in E as (a & Ha%list_elem_of_In & Hnil).
  rewrite Forall_forall in H. specialize (H a Ha).
  by destruct (a.2).
Qed.

Lemma branches_length axes :
  length (branches (expand axes)) = foldr (fun a n => length a.2 * n) 1 axes.
Proof.
  destruct (decide (Exists (fun a => a.2 = []) axes)) as [Hex|Hall].
  - rewrite (expand_empty axes Hex). cbn [branches length].
    clear -Hex. induction Hex as [a axes Ha|a axes _ IH]; cbn.
    + by rewrite Ha.
    + rewrite <- IH. lia.
  - rewrite expand_nonempty; [apply product_length|].
    apply Forall_forall. intros a Ha Hnil. apply Hall, Exists_exists. eauto.
Qed.

End ExpansionFacts.

(** C1. For a subject list, a temporal-filter list and a spatial-filter list
    of sizes m, n and k, expansion of the iterables the notebook declares
    instantiates m * n * k branches; when it succeeds, the branch at position
    (i * n + j) * k + l binds the i-th subject, the j-th temporal filter and
    the l-th spatial filter, that is, the tuples follow the declaration order
    of the axes and then the order within each axis; and two expansions of
    the same input give the same result. *)
Theorem expand_cartesian {num} (subject_list : list string)
    (filters_temporal filters_spatial : list (list (scalar num))) :
  length (branches (expand (iterables subject_list filters_temporal
                              filters_spatial)))
  = length subject_list * length filters_temporal * length filters_spatial
  /\ (forall i j l s t f,
        subject_list !! i = Some s ->
        filters_temporal !! j = Some t ->
        filters_spatial !! l = Some f ->
        exists tuples,
          expand (iterables subject_list filters_temporal filters_spatial)
          = inr tuples
          /\ tuples !! ((i * length filters_temporal + j)
                          * length filters_spatial + l)
             = Some [("subject_id", Subject s); ("tFilter", Filter t);
                     ("sFilter", Filter f)])
  /\ (forall r1 r2,
        r1 = expand (iterables subject_list filters_temporal filters_spatial) ->
        r2 = expand (iterables subject_list filters_temporal filters_spatial) ->
        r1 = r2).
Proof.
  split_and!.
  - rewrite branches_length. unfold iterables. cbn [app foldr snd].
    rewrite !length_map. lia.
  - intros i j l s t f Hs Ht Hf. eexists. split.
    + apply expand_nonempty. unfold iterables. cbn [app].
      repeat constructor; cbn [snd]; intros E;
        apply (f_equal length) in E; rewrite length_map in E; cbn in E.
      * apply lookup_lt_Some in Hs. lia.
      * apply lookup_lt_Some in Ht. lia.
      * apply lookup_lt_Some in Hf. lia.
    + unfold iterables. cbn [app]. rewrite !product_cons.
      set (n := length filters_temporal). set (k := length filters_spatial).
      replace ((i * n + j) * k + l) with (i * (n * k) + (j * k + l)) by lia.
      assert (Hl : l < k) by (by eapply lookup_lt_Some).
      assert (Hj : j < n) by (by eapply lookup_lt_Some).
      assert (Hk1 : forall (name : string) (v : axis_value num),
                length (map (cons (name, v)) (product []))
                = 1) by done.
      assert (Hk : forall y : axis_value num,
                length (map (cons ("tFilter", y))
                          (v ← map Filter filters_spatial;
                           map (cons ("sFilter", v)) (product [])))
                = k).
      { intros y. rewrite length_map, (length_bind_uniform _ _ 1) by done.
        rewrite length_map. unfold k. lia. }
      rewrite (lookup_bind_uniform _ _ (n * k) i (j * k + l) (Subject s)).
      * rewrite list_lookup_fmap.
        rewrite (lookup_bind_uniform _ _ k j l (Filter t)); [|done| |done].
        -- rewrite list_lookup_fmap.
           replace l with (l * 1 + 0) at 1 by lia.
           rewrite (lookup_bind_uniform _ _ 1 l 0 (Filter f)); [done|done| |lia].
           by rewrite list_lookup_fmap, Hf.
        -- by rewrite list_lookup_fmap, Ht.
      * intros y. rewrite length_map, (length_bind_uniform _ _ k) by done.
        rewrite length_map. done.
      * by rewrite list_lookup_fmap, Hs.
      * nia.
  - by intros r1 r2 -> ->.
Qed.

Lemma expand_cartesian_witness :
  expand (iterables ["01"; "02"] [[SNum 5%Z; SNum 100%Z]]
            [[SStr "LP"; SNum 6%Z]; [SStr "LP"; SNum 8%Z]])
  = inr [ [("subject_id", Subject "01");
           ("tFilter", Filter [SNum 5%Z; SNum 100%Z]);
           ("sFilter", Filter [SStr "LP"; SNum 6%Z])];
          [("subject_id", Subject "01");
           ("tFilter", Filter [SNum 5%Z; SNum 100%Z]);
           ("sFilter", Filter [SStr "LP"; SNum 8%Z])];
          [("subject_id", Subject "02");
           ("tFilter", Filter [SNum 5%Z; SNum 100%Z]);
           ("sFilter", Filter [SStr "LP"; SNum 6%Z])];
          [("subject_id", Subject "02");
           ("tFilter", Filter [SNum 5%Z; SNum 100%Z]);
           ("sFilter", Filter [SStr "LP"; SNum 8%Z])] ]
  /\ exists tuples,
       expand (iterables ["01"; "02"] [[SNum 5%Z; SNum 100%Z]]
                 [[SStr "LP"; SNum 6%Z]; [SStr "LP"; SNum 8%Z]])
       = inr tuples
       /\ tuples !! 3
          = Some [("subject_id", Subject "02");
                  ("tFilter", Filter [SNum 5%Z; SNum 100%Z]);
                  ("sFilter", Filter [SStr "LP"; SNum 8%Z])].
Proof.
  split; [reflexivity|].
  exact (proj1 (proj2 (expand_cartesian ["01"; "02"] [[SNum 5%Z; SNum 100%Z]]
                         [[SStr "LP"; SNum 6%Z]; [SStr "LP"; SNum 8%Z]]))
           1 0 1 "02" [SNum 5%Z; SNum 100%Z] [SStr "LP"; SNum 8%Z]
           eq_refl eq_refl eq_refl).
Defined.

(** C2. When the subject list, the temporal-filter list or the
    spatial-filter list is empty, expansion of the notebook's iterables fails
    with ConfigError ("empty iterable axis") and instantiates no branch. *)
Theorem expand_empty_axis {num} (subject_list : list string)
    (filters_temporal filters_spatial : list (list (scalar num))) :
  subject_list = [] \/ filters_temporal = [] \/ filters_spatial = [] ->
  expand (iterables subject_list filters_temporal filters_spatial)
  = inl (ConfigError "empty iterable axis")
  /\ branches (expand (iterables subject_list filters_temporal filters_spatial))
     = [].
Proof.
  intros H.
  assert (E : expand (iterables subject_list filters_temporal filters_spatial)
              = inl (ConfigError "empty iterable axis")).
  { apply expand_empty. unfold iterables. cbn [app].
    destruct H as [->|[->| ->]].
    - by left.
    - by right; left.
    - by right; right; left. }
  by rewrite E.
Qed.

Lemma expand_empty_axis_witness :
  expand (iterables (num := Z) [] [[SNum 5%Z; SNum 100%Z]] [[SStr "LP"; SNum 6%Z]])
  = inl (ConfigError "empty iterable axis")
  /\ branches (expand (iterables (num := Z) [] [[SNum 5%Z; SNum 100%Z]]
                         [[SStr "LP"; SNum 6%Z]])) = [].
Proof.
  apply (expand_empty_axis [] [[SNum 5%Z; SNum 100%Z]] [[SStr "LP"; SNum 6%Z]]).
  by left.
Defined.

(** ** What the notebook itself does with the axes *)

(** The datasink gets one rule per subject, temporal filter and spatial
    filter, and none when one of the three lists is empty. *)
Lemma branch_substitutions_length {num} (str_num : num -> string)
    (subject_list : list string)
    (filters_temporal filters_spatial : list (list (scalar num))) :
  length (branch_substitutions str_num subject_list filters_temporal
            filters_spatial)
  = length subject_list * length filters_temporal * length filters_spatial.
Proof.
  unfold branch_substitutions.
  rewrite (length_bind_uniform _ _
             (length filters_temporal * length filters_spatial)); [lia|].
  intros sub.
  rewrite (length_bind_uniform _ _ (length filters_spatial)).
  - by rewrite length_map.
  - intros t. rewrite (length_bind_uniform _ _ 1) by done.
    rewrite length_map. lia.
Qed.

(** Building the workflow checks no list for emptiness. With no temporal
    filter, the cutoff [filters_temporal[0][1]] raises IndexError. *)
Lemma build_workflow_no_temporal_filter {num} (str_num : num -> string)
    (fs : json_files num) (sp : specs num) (TR : num)
    (l : list (contrast num)) :
  get_TR fs (task_id sp) = Ok TR ->
  contrast_list (condition_names sp) (contrasts sp) = Ok l ->
  filters_temporal sp = [] ->
  build_workflow str_num fs sp = Raise IndexError.
Proof.
  intros HTR Hl Hnil. unfold build_workflow.
  rewrite HTR, bind_Ok, Hl, bind_Ok.
  unfold high_pass_filter_cutoff. by rewrite Hnil.
Qed.

(** With no subject, or no spatial filter, the workflow is built all the
    same and is handed to the engine with an empty axis. *)
Lemma build_workflow_empty_axis {num} (str_num : num -> string)
    (fs : json_files num) (sp : specs num) (TR : num)
    (l : list (contrast num)) (cutoff : scalar num) :
  get_TR fs (task_id sp) = Ok TR ->
  contrast_list (condition_names sp) (contrasts sp) = Ok l ->
  high_pass_filter_cutoff (filters_temporal sp) = Ok cutoff ->
  exists w,
    build_workflow str_num fs sp = Ok w
    /\ w_iterables w
       = [("subject_id", map Subject (subject_list sp));
          ("tFilter", map Filter (filters_temporal sp));
          ("sFilter", map Filter (filters_spatial sp))].
Proof.
  intros HTR Hl Hc. unfold build_workflow.
  rewrite HTR, bind_Ok, Hl, bind_Ok, Hc, bind_Ok. eauto.
Qed.

(** * Further properties *)

(** ** [str.replace] *)

Lemma replace_from_skip (old new x b : string) :
  replace_from old new (String.length x) (x +:+ b) = replace_from old new 0 b.
Proof.
  induction x as [|c x IH]; [done|].
  rewrite string_app_cons. cbn [String.length replace_from]. exact IH.
Qed.

Lemma replace_from_cons (old new : string) (c : ascii) (s : string) :
  replace_from old new 0 (String c s)
  = if String.prefix old (String c s)
    then new +:+ replace_from old new (String.length old - 1) s
    else String c (replace_from old new 0 s).
Proof. reflexivity. Qed.

(** A string in which [old] does not occur is left as it is. *)
Lemma str_replace_absent (old new s : string) :
  substringb old s = false -> str_replace old new s = s.
Proof.
  unfold str_replace. induction s as [|c s IH]; [done|].
  rewrite substringb_cons, replace_from_cons.
  intros [Hp Hs]%orb_false_iff. rewrite Hp. f_equal. by apply IH.
Qed.

Lemma prefix_long (p y z : string) :
  String.length p <= String.length y ->
  String.prefix p (y +:+ z) = String.prefix p y.
Proof.
  revert y. induction p as [|c p IH]; intros y Hlen; [by destruct y, z|].
  destruct y as [|d y]; [cbn in Hlen; lia|].
  rewrite string_app_cons. cbn [String.prefix].
  destruct (ascii_dec c d); [|done]. apply IH. cbn in Hlen. lia.
Qed.

Lemma string_app_assoc (s t u : string) : (s +:+ t) +:+ u = s +:+ t +:+ u.
Proof.
  induction s as [|c s IH]; [done|]. rewrite !string_app_cons. by rewrite IH.
Qed.

Lemma replace_from_prefix (old new b : string) :
  old ≠ EmptyString ->
  replace_from old new 0 (old +:+ b) = new +:+ replace_from old new 0 b.
Proof.
  destruct old as [|c oo]; [done|]. intros _.
  rewrite string_app_cons, replace_from_cons, <- string_app_cons.
  rewrite (proj2 (prefix_app (String c oo) (String c oo +:+ b))) by eauto.
  f_equal.
  replace (String.length (String c oo) - 1) with (String.length oo)
    by (cbn; lia).
  apply replace_from_skip.
Qed.

(** The leftmost occurrence is replaced and the scan goes on behind it. *)
Lemma str_replace_first (o : string) (l : ascii) (new a b : string) :
  substringb (o +:+ String l EmptyString) (a +:+ o) = false ->
  str_replace (o +:+ String l EmptyString) new
    (a +:+ (o +:+ String l EmptyString) +:+ b)
  = a +:+ new +:+ str_replace (o +:+ String l EmptyString) new b.
Proof.
  set (old := o +:+ String l EmptyString).
  assert (Hlen : String.length old = S (String.length o)).
  { unfold old. rewrite string_length_app. cbn. lia. }
  assert (Hne : old ≠ EmptyString).
  { intros E. rewrite E in Hlen. discriminate Hlen. }
  unfold str_replace. induction a as [|x a IH]; intros H.
  - exact (replace_from_prefix old new b Hne).
  - rewrite !string_app_cons, replace_from_cons.
    rewrite string_app_cons, substringb_cons in H.
    apply orb_false_iff in H as [Hp Hs].
    assert (Hp' : String.prefix old (String x (a +:+ old +:+ b)) = false).
    { rewrite <- Hp, <- !string_app_cons. unfold old at 2.
      rewrite (string_app_assoc o), <- (string_app_assoc (String x a) o).
      apply prefix_long. rewrite Hlen, string_length_app. cbn. lia. }
    rewrite Hp'. f_equal. by apply IH.
Qed.

(** ** Label file and compressed contrasts *)

(** X9. The label file takes the place of [SPM.mat] in the path: for a path
    that ends in [SPM.mat] and holds no earlier occurrence of it, the labels
    go to [labels.csv] in the same directory. *)
Theorem write_labels_file_beside_spm (condition_labels : list string)
    (dir : string) :
  substringb "SPM.mat" (dir +:+ "SPM.ma") = false ->
  write_labels_file condition_labels (dir +:+ "SPM.mat")
  = (dir +:+ "labels.csv", condition_labels).
Proof.
  intros H. unfold write_labels_file. f_equal.
  exact (str_replace_first "SPM.ma" "t" "labels.csv" dir EmptyString H).
Qed.

Lemma write_labels_file_beside_spm_witness :
  write_labels_file ["faces"; "houses"] "/workingdir/analysis_1st/SPM.mat"
  = ("/workingdir/analysis_1st/labels.csv", ["faces"; "houses"]).
Proof.
  apply (write_labels_file_beside_spm ["faces"; "houses"]
           "/workingdir/analysis_1st/").
  reflexivity.
Defined.

(** X10. For a path in which [SPM.mat] does not occur, the label file is the
    given file itself: the labels are written over it. *)
Theorem write_labels_file_same_path (condition_labels : list string)
    (spm_mat_file : string) :
  substringb "SPM.mat" spm_mat_file = false ->
  write_labels_file condition_labels spm_mat_file
  = (spm_mat_file, condition_labels).
Proof.
  intros H. unfold write_labels_file. by rewrite str_replace_absent.
Qed.

Lemma write_labels_file_same_path_witness :
  write_labels_file ["faces"] "/workingdir/analysis_1st/spm.mat"
  = ("/workingdir/analysis_1st/spm.mat", ["faces"]).
Proof.
  apply (write_labels_file_same_path ["faces"] "/workingdir/analysis_1st/spm.mat").
  reflexivity.
Defined.

(** X11. For a name whose [.nii] is followed by a rest without [.nii]
    (nothing for [con_0001.nii], [.gz] for a name that is compressed
    already), [gzip_contrast] loads the file of that name, has the image
    written under the name with [.nii.gz] in place of [.nii], rest kept, and
    returns that name: [con_0001.nii.gz] for the first, [con_0001.nii.gz.gz]
    for the second. Whether the writer takes the name is nibabel's matter. *)
Theorem gzip_contrast_output_name `{!MRet M, !MBind M} {img}
    (load : string -> M img) (to_filename : img -> string -> M unit)
    (stem rest : string) :
  substringb ".nii" (stem +:+ ".ni") = false ->
  substringb ".nii" rest = false ->
  gzip_contrast load to_filename (stem +:+ ".nii" +:+ rest)
  = (i ← load (stem +:+ ".nii" +:+ rest);
     to_filename i (stem +:+ ".nii.gz" +:+ rest);;
     mret (stem +:+ ".nii.gz" +:+ rest)).
Proof.
  intros Hstem Hrest.
  assert (E : str_replace ".nii" ".nii.gz" (stem +:+ ".nii" +:+ rest)
              = stem +:+ ".nii.gz" +:+ rest).
  { pose proof (str_replace_first ".ni" "i" ".nii.gz" stem rest Hstem) as E.
    change (".ni" +:+ String "i" EmptyString) with ".nii" in E.
    by rewrite E, str_replace_absent. }
  unfold gzip_contrast. by rewrite E.
Qed.

Lemma gzip_contrast_output_name_witness :
  gzip_contrast (M := result)
    (fun name => if String.eqb name "con_0001_norm.nii" then Ok 7
                 else Raise (FileNotFoundError name))
    (fun _ out => if String.eqb out "con_0001_norm.nii.gz" then Ok ()
                  else Raise ValueError)
    "con_0001_norm.nii"
  = Ok "con_0001_norm.nii.gz".
Proof.
  exact (eq_trans
           (gzip_contrast_output_name (M := result) _ _
              "con_0001_norm" EmptyString eq_refl eq_refl)
           eq_refl).
Defined.

(** X12. For a name that holds no [.nii], the name [gzip_contrast] hands to
    the writer, and returns, is the name it was given: the image is written
    onto the file it is loaded from. *)
Theorem gzip_contrast_onto_input `{!MRet M, !MBind M} {img}
    (load : string -> M img) (to_filename : img -> string -> M unit)
    (contrast : string) :
  substringb ".nii" contrast = false ->
  gzip_contrast load to_filename contrast
  = (i ← load contrast; to_filename i contrast;; mret contrast).
Proof.
  intros H. unfold gzip_contrast. by rewrite str_replace_absent.
Qed.

Lemma gzip_contrast_onto_input_witness :
  gzip_contrast (M := result)
    (fun name => if String.eqb name "con_0001.img" then Ok 7
                 else Raise (FileNotFoundError name))
    (fun _ out => if String.eqb out "con_0001.img" then Ok ()
                  else Raise ValueError)
    "con_0001.img"
  = Ok "con_0001.img".
Proof.
  rewrite (gzip_contrast_onto_input (M := result) _ _ "con_0001.img");
    reflexivity.
Defined.

(** ** Subject information: errors, order, conservation *)

(** X1. With fewer offset files than event files, [subjectinfo] raises
    IndexError at the first run that has none. *)
Theorem subjectinfo_missing_offset {num} (sub : num -> num -> num)
    (event_glob : list (string * list (event num)))
    (nss_glob : list (string * num)) :
  length nss_glob < length event_glob ->
  subjectinfo sub event_glob nss_glob = Raise IndexError.
Proof.
  intros H. unfold subjectinfo. apply subjectinfo_loop_short.
  - rewrite !sorted_files_length. lia.
  - lia.
Qed.

Lemma subjectinfo_missing_offset_witness :
  subjectinfo Z.sub example_events [("sub-01_task-memory_run-01_nss.txt", 4%Z)]
  = Raise IndexError.
Proof.
  apply (subjectinfo_missing_offset Z.sub example_events
           [("sub-01_task-memory_run-01_nss.txt", 4%Z)]).
  cbn. lia.
Defined.

Lemma NoDup_fst_eq {C} (l : list (string * C)) (x y : string * C) :
  NoDup (map fst l) -> x ∈ l -> y ∈ l -> x.1 = y.1 -> x = y.
Proof.
  intros Hnd [i Hi]%list_elem_of_lookup [j Hj]%list_elem_of_lookup E.
  assert (i = j) as ->; [|congruence].
  eapply NoDup_lookup; [exact Hnd| |].
  - rewrite list_lookup_fmap, Hi. reflexivity.
  - rewrite list_lookup_fmap, Hj. cbn. by rewrite E.
Qed.

(** Files with distinct names come out of the sort in one order, however
    [glob] lists them. *)
Lemma sorted_files_unique {C} (l l' : list (string * C)) :
  l ≡ₚ l' -> NoDup (map fst l) -> sorted_files l = sorted_files l'.
Proof.
  intros Hperm Hnd.
  apply (StronglySorted_unique_strong (fun a b => String.le a.1 b.1)).
  - intros x y Hx Hy Hxy Hyx.
    apply (NoDup_fst_eq l); [done| | |].
    + by rewrite <- (sorted_files_Permutation l).
    + by rewrite Hperm, <- (sorted_files_Permutation l').
    + by apply (anti_symm String.le).
  - apply sorted_files_sorted.
  - apply sorted_files_sorted.
  - by rewrite !sorted_files_Permutation.
Qed.

(** X2. The result of [subjectinfo] does not depend on the order in which
    [glob] lists the event files and the offset files, their names being
    distinct. *)
Theorem subjectinfo_glob_order {num} (sub : num -> num -> num)
    (event_glob event_glob' : list (string * list (event num)))
    (nss_glob nss_glob' : list (string * num)) :
  event_glob ≡ₚ event_glob' -> NoDup (map fst event_glob) ->
  nss_glob ≡ₚ nss_glob' -> NoDup (map fst nss_glob) ->
  subjectinfo sub event_glob nss_glob = subjectinfo sub event_glob' nss_glob'.
Proof.
  intros He Hne Hn Hnn. unfold subjectinfo.
  by rewrite (sorted_files_unique _ _ He Hne), (sorted_files_unique _ _ Hn Hnn).
Qed.

Lemma subjectinfo_glob_order_witness :
  subjectinfo Z.sub example_events example_nss
  = subjectinfo Z.sub (reverse example_events) (reverse example_nss).
Proof.
  apply (subjectinfo_glob_order Z.sub example_events (reverse example_events)
           example_nss (reverse example_nss)).
  - symmetry. apply reverse_Permutation.
  - cbn. repeat (constructor; [rewrite ?elem_of_cons, ?elem_of_nil;
                               intuition discriminate|]). constructor.
  - symmetry. apply reverse_Permutation.
  - cbn. repeat (constructor; [rewrite ?elem_of_cons, ?elem_of_nil;
                               intuition discriminate|]). constructor.
Defined.










(** ** Contrasts per condition and run: entries and names *)

Lemma run_pairs_map (n_conditions n_contrasts : nat) :
  (j ← seq 0 n_conditions; i ← seq 0 n_contrasts; [(j, i)])
  = j ← seq 0 n_conditions; map (pair j) (seq 0 n_contrasts).
Proof. apply list_bind_ext; [|done]. intros j. apply bind_singleton_map. Qed.

Lemma run_pairs_length (n_conditions n_contrasts : nat) :
  length (j ← seq 0 n_conditions; i ← seq 0 n_contrasts; [(j, i)])
  = n_conditions * n_contrasts.
Proof.
  rewrite run_pairs_map, (length_bind_uniform _ _ n_contrasts).
  - by rewrite length_seq.
  - intros j. by rewrite length_map, length_seq.
Qed.

Lemma run_pairs_lookup (n_conditions n_contrasts k : nat) :
  k < n_conditions * n_contrasts ->
  (j ← seq 0 n_conditions; i ← seq 0 n_contrasts; [(j, i)]) !! k
  = Some (k / n_contrasts, k mod n_contrasts).
Proof.
  intros Hk. assert (Hnc : n_contrasts ≠ 0) by lia.
  rewrite run_pairs_map.
  rewrite (Nat.div_mod_eq k n_contrasts) at 1.
  rewrite (Nat.mul_comm n_contrasts).
  rewrite (lookup_bind_uniform _ _ n_contrasts _ _ (k / n_contrasts)).
  - rewrite list_lookup_fmap, lookup_seq_lt; [done|].
    by apply Nat.mod_upper_bound.
  - intros j. by rewrite length_map, length_seq.
  - apply lookup_seq_lt. apply Nat.Div0.div_lt_upper_bound. lia.
  - by apply Nat.mod_upper_bound.
Qed.

Lemma get_contrast_per_run_rectangular (stimuli_order : list (list string))
    (condition_names : list string) r :
  get_contrast_per_run stimuli_order condition_names = Ok r ->
  rectangular stimuli_order = true.
Proof.
  unfold get_contrast_per_run, np_reshape_pairs.
  rewrite rectangular_event_list.
  by destruct (rectangular stimuli_order).
Qed.

(** The list of run contrasts in closed form. *)
Lemma get_contrast_per_run_entries (stimuli_order : list (list string))
    (condition_names : list string) :
  rectangular stimuli_order = true ->
  get_contrast_per_run stimuli_order condition_names
  = Ok (map (fun ji : nat * nat =>
               RunContrast
                 (cont_name (1 + ji.2
                             + ji.1 * length (runs_with_events stimuli_order)))
                 "T" condition_names
                 (indicator (length condition_names) ji.2)
                 (indicator (length (runs_with_events stimuli_order)) ji.1))
            (j ← seq 0 (length (runs_with_events stimuli_order));
             i ← seq 0 (length condition_names); [(j, i)]),
        concat (replicate (length (runs_with_events stimuli_order))
                  condition_names)).
Proof.
  intros Hrect. unfold get_contrast_per_run, np_reshape_pairs.
  rewrite rectangular_event_list, Hrect, bind_Ok.
  fold (runs_with_events stimuli_order). cbv zeta.
  set (r := length (runs_with_events stimuli_order)).
  set (g := fun ji : nat * nat =>
    (RunContrast (cont_name (1 + ji.2 + ji.1 * r)) "T" condition_names
       (indicator (length condition_names) ji.2) (indicator r ji.1),
     default EmptyString (condition_names !! ji.2))).
  rewrite (mapM_Ok_map _ g).
  - rewrite bind_Ok, !map_map. f_equal. f_equal. apply run_labels.
  - apply Forall_forall.
    intros [j i] (j' & (i' & Hji & Hi')%list_elem_of_bind & _)%list_elem_of_bind.
    apply list_elem_of_singleton in Hji as [= -> ->].
    apply elem_of_seq in Hi' as [_ Hi']. cbn in Hi'.
    destruct (lookup_lt_is_Some_2 condition_names i' Hi') as [x Hx].
    unfold run_entry, py_index, g. cbn [fst snd]. by rewrite Hx.
Qed.

Lemma indicator_length (n i : nat) : length (indicator n i) = n.
Proof. unfold indicator. by rewrite length_insert, length_replicate. Qed.

Lemma indicator_lookup (n i p : nat) :
  i < n -> p < n ->
  indicator n i !! p = Some (if decide (p = i) then 1 else 0).
Proof.
  intros Hi Hp. unfold indicator. case_decide as E.
  - subst. apply list_lookup_insert_eq. by rewrite length_replicate.
  - rewrite list_lookup_insert_ne by done. by apply lookup_replicate_2.
Qed.

(** X6. The run contrasts come run by run and, within a run, condition by
    condition: the [k]-th one is named [cont_%05d] of
    [1 + k mod n + (k / n) * r] ([n] conditions, [r] runs found), has type 'T',
    carries all condition names, weighs the conditions by a vector with a
    single 1 at [k mod n], and the runs by a vector with a single 1 at
    [k / n]. *)
Theorem run_contrast_structure (stimuli_order : list (list string))
    (condition_names : list string)
    (run_contrasts : list run_contrast) (condition_labels : list string)
    (k : nat) :
  get_contrast_per_run stimuli_order condition_names
  = Ok (run_contrasts, condition_labels) ->
  k < length condition_names * length (runs_with_events stimuli_order) ->
  exists c,
    run_contrasts !! k = Some c
    /\ r_name c
       = cont_name (1 + k mod length condition_names
                    + (k / length condition_names)
                      * length (runs_with_events stimuli_order))
    /\ r_stat c = "T"
    /\ r_conditions c = condition_names
    /\ length (r_con_id c) = length condition_names
    /\ (forall p, p < length condition_names ->
          r_con_id c !! p
          = Some (if decide (p = k mod length condition_names) then 1 else 0))
    /\ length (r_run_id c) = length (runs_with_events stimuli_order)
    /\ (forall p, p < length (runs_with_events stimuli_order) ->
          r_run_id c !! p
          = Some (if decide (p = k / length condition_names) then 1 else 0)).
Proof.
  intros Hget Hk.
  pose proof (get_contrast_per_run_rectangular _ _ _ Hget) as Hrect.
  rewrite (get_contrast_per_run_entries _ _ Hrect) in Hget.
  injection Hget as <- <-.
  set (n := length condition_names) in *.
  set (r := length (runs_with_events stimuli_order)) in *.
  assert (Hn : n ≠ 0) by lia.
  eexists. split.
  { rewrite list_lookup_fmap, run_pairs_lookup by lia. reflexivity. }
  cbn [r_name r_stat r_conditions r_con_id r_run_id fst snd].
  assert (Hmod : k mod n < n) by (by apply Nat.mod_upper_bound).
  assert (Hdiv : k / n < r) by (apply Nat.Div0.div_lt_upper_bound; lia).
  split_and!; try done.
  - apply indicator_length.
  - intros p Hp. by apply indicator_lookup.
  - apply indicator_length.
  - intros p Hp. by apply indicator_lookup.
Qed.

Lemma run_contrast_structure_witness :
  exists c,
    [ RunContrast "cont_00001" "T" ["faces"; "houses"] [1; 0] [1; 0];
      RunContrast "cont_00002" "T" ["faces"; "houses"] [0; 1] [1; 0];
      RunContrast "cont_00003" "T" ["faces"; "houses"] [1; 0] [0; 1];
      RunContrast "cont_00004" "T" ["faces"; "houses"] [0; 1] [0; 1] ] !! 3
    = Some c
    /\ r_name c = "cont_00004".
Proof.
  destruct (run_contrast_structure
              [["faces"; "houses"; "empty"]; ["houses"; "faces"; "faces"]]
              ["faces"; "houses"] _ _ 3 eq_refl)
    as (c & Hc & Hname & _); [vm_compute; lia|].
  exists c. split; [exact Hc|]. rewrite Hname. reflexivity.
Defined.

Lemma cont_name_inj (a b : nat) : cont_name a = cont_name b -> a = b.
Proof. intros E%(inj (String.app _)). eapply fmt_d_inj, E. Qed.

Lemma elem_of_run_pairs (n_conditions n_contrasts j i : nat) :
  (j, i) ∈ (j ← seq 0 n_conditions; i ← seq 0 n_contrasts; [(j, i)])
  -> j < n_conditions /\ i < n_contrasts.
Proof.
  intros (j' & (i' & Hji & Hi')%list_elem_of_bind & Hj')%list_elem_of_bind.
  apply list_elem_of_singleton in Hji as [= -> ->].
  apply elem_of_seq in Hi', Hj'. lia.
Qed.

Lemma run_pairs_NoDup (n_conditions n_contrasts : nat) :
  NoDup (j ← seq 0 n_conditions; i ← seq 0 n_contrasts; [(j, i)]).
Proof.
  apply NoDup_alt. intros a b [j i] Ha Hb.
  assert (La : a < n_conditions * n_contrasts).
  { rewrite <- run_pairs_length. by eapply lookup_lt_Some. }
  assert (Lb : b < n_conditions * n_contrasts).
  { rewrite <- run_pairs_length. by eapply lookup_lt_Some. }
  rewrite run_pairs_lookup in Ha, Hb by done.
  injection Ha as Ha1 Ha2. injection Hb as Hb1 Hb2.
  rewrite (Nat.div_mod_eq a n_contrasts), (Nat.div_mod_eq b n_contrasts).
  congruence.
Qed.

(** X7. With no more conditions than runs found (or a single run), the run
    contrasts all carry different names. *)
Theorem run_contrast_names_distinct (stimuli_order : list (list string))
    (condition_names : list string)
    (run_contrasts : list run_contrast) (condition_labels : list string) :
  get_contrast_per_run stimuli_order condition_names
  = Ok (run_contrasts, condition_labels) ->
  length condition_names <= length (runs_with_events stimuli_order)
  \/ length (runs_with_events stimuli_order) <= 1 ->
  NoDup (map r_name run_contrasts).
Proof.
  intros Hget Hsize.
  pose proof (get_contrast_per_run_rectangular _ _ _ Hget) as Hrect.
  rewrite (get_contrast_per_run_entries _ _ Hrect) in Hget.
  injection Hget as <- <-.
  set (n := length condition_names) in *.
  set (r := length (runs_with_events stimuli_order)) in *.
  rewrite map_map. cbn [r_name].
  apply NoDup_fmap_2_strong; [|apply run_pairs_NoDup].
  intros [j i] [j' i'] [Hj Hi]%elem_of_run_pairs [Hj' Hi']%elem_of_run_pairs
    E%cont_name_inj.
  cbn [fst snd] in E.
  assert (j = j') as -> by nia.
  f_equal. lia.
Qed.

Lemma run_contrast_names_distinct_witness :
  NoDup ["cont_00001"; "cont_00002"; "cont_00003"; "cont_00004"].
Proof.
  exact (run_contrast_names_distinct
           [["faces"; "houses"; "empty"]; ["houses"; "faces"; "faces"]]
           ["faces"; "houses"] _ _ eq_refl
           ltac:(left; vm_compute; lia)).
Defined.

(** X8. With at least two runs found and more conditions than runs, two run
    contrasts share a name: with [r] runs found and [n] conditions, the
    contrast of condition [r] in the first run (position [r]) and the contrast
    of the first condition in the second run (position [n]) are both named
    [cont_%05d] of [r + 1]. The name is numbered with the number of runs where
    the position uses the number of conditions. *)
Theorem run_contrast_names_collide (stimuli_order : list (list string))
    (condition_names : list string)
    (run_contrasts : list run_contrast) (condition_labels : list string) :
  get_contrast_per_run stimuli_order condition_names
  = Ok (run_contrasts, condition_labels) ->
  2 <= length (runs_with_events stimuli_order) ->
  length (runs_with_events stimuli_order) < length condition_names ->
  exists c1 c2,
    run_contrasts !! length (runs_with_events stimuli_order) = Some c1
    /\ run_contrasts !! length condition_names = Some c2
    /\ r_name c1 = cont_name (1 + length (runs_with_events stimuli_order))
    /\ r_name c2 = cont_name (1 + length (runs_with_events stimuli_order))
    /\ r_con_id c1 ≠ r_con_id c2.
Proof.
  intros Hget Hr Hn.
  pose proof (get_contrast_per_run_rectangular _ _ _ Hget) as Hrect.
  rewrite (get_contrast_per_run_entries _ _ Hrect) in Hget.
  injection Hget as <- <-.
  set (n := length condition_names) in *.
  set (r := length (runs_with_events stimuli_order)) in *.
  eexists _, _. split_and!.
  - rewrite list_lookup_fmap, run_pairs_lookup by nia. reflexivity.
  - rewrite list_lookup_fmap, run_pairs_lookup by nia. reflexivity.
  - cbn [r_name fst snd]. rewrite Nat.div_small, Nat.mod_small by lia.
    f_equal. lia.
  - cbn [r_name fst snd]. rewrite Nat.div_same, Nat.Div0.mod_same by lia.
    f_equal. lia.
  - cbn [r_con_id fst snd]. rewrite Nat.mod_small, Nat.Div0.mod_same by lia.
    intros E. apply (f_equal (fun l => l !! 0)) in E.
    rewrite !indicator_lookup in E by lia.
    rewrite decide_False, decide_True in E by lia. discriminate E.
Qed.

Lemma run_contrast_names_collide_witness :
  exists c1 c2,
    [ RunContrast "cont_00001" "T" ["a"; "b"; "c"] [1; 0; 0] [1; 0];
      RunContrast "cont_00002" "T" ["a"; "b"; "c"] [0; 1; 0] [1; 0];
      RunContrast "cont_00003" "T" ["a"; "b"; "c"] [0; 0; 1] [1; 0];
      RunContrast "cont_00003" "T" ["a"; "b"; "c"] [1; 0; 0] [0; 1];
      RunContrast "cont_00004" "T" ["a"; "b"; "c"] [0; 1; 0] [0; 1];
      RunContrast "cont_00005" "T" ["a"; "b"; "c"] [0; 0; 1] [0; 1] ] !! 2
    = Some c1
    /\ [ RunContrast "cont_00001" "T" ["a"; "b"; "c"] [1; 0; 0] [1; 0];
         RunContrast "cont_00002" "T" ["a"; "b"; "c"] [0; 1; 0] [1; 0];
         RunContrast "cont_00003" "T" ["a"; "b"; "c"] [0; 0; 1] [1; 0];
         RunContrast "cont_00003" "T" ["a"; "b"; "c"] [1; 0; 0] [0; 1];
         RunContrast "cont_00004" "T" ["a"; "b"; "c"] [0; 1; 0] [0; 1];
         RunContrast "cont_00005" "T" ["a"; "b"; "c"] [0; 0; 1] [0; 1] ] !! 3
       = Some c2
    /\ r_name c1 = "cont_00003" /\ r_name c2 = "cont_00003".
Proof.
  destruct (run_contrast_names_collide [["a"; "b"]; ["c"; "a"]] ["a"; "b"; "c"]
              _ _ eq_refl)
    as (c1 & c2 & H1 & H2 & N1 & N2 & _); [vm_compute; lia | vm_compute; lia |].
  exists c1, c2. split; [exact H1|]. split; [exact H2|].
  split; [exact N1 | exact N2].
Defined.

(** ** Nuisance regressors: file names, errors, edge selectors *)

Lemma regressors_loop_files {num} (cwd : string)
    (tables : gmap string (table num)) (nuisance : list string)
    (confounds : list string) :
  forall i regressor_files written files' written',
    regressors_loop cwd tables nuisance i confounds regressor_files written
    = Ok (files', written') ->
    files' = regressor_files
             ++ map (regressor_path cwd) (seq i (length confounds)).
Proof.
  induction confounds as [|c rest IH]; intros i files written files' written'.
  - cbn. intros [= <- <-]. by rewrite app_nil_r.
  - cbn [regressors_loop].
    destruct (tables !! c) as [df|]; [|discriminate]. rewrite bind_Ok.
    destruct (select_columns df _) as [dfs|]; [|discriminate]. rewrite bind_Ok.
    intros ->%IH. by rewrite <- app_assoc.
Qed.

(** X13. The regressor files of one call are [confounds_%02d.rst] numbered from
    zero in the working directory, and no two of them have the same name,
    also from the hundredth on, where the number takes three digits. *)
Theorem regressor_files_distinct {num} (cwd : string)
    (tables : gmap string (table num))
    (written written' : gmap string (list (list num)))
    (confounds nuisance_regressors regressor_files : list string) :
  create_nuisance_regressors cwd tables written confounds nuisance_regressors
  = Ok (regressor_files, written') ->
  regressor_files = map (regressor_path cwd) (seq 0 (length confounds))
  /\ NoDup regressor_files.
Proof.
  intros H%regressors_loop_files. cbn [app] in H. subst. split; [done|].
  apply NoDup_fmap_2_strong; [|apply NoDup_seq].
  intros i j _ _. apply regressor_path_inj.
Qed.

Lemma regressor_files_distinct_witness :
  ["/wd/confounds_00.rst"]
  = map (regressor_path "/wd") (seq 0 1)
  /\ NoDup ["/wd/confounds_00.rst"].
Proof.
  refine (regressor_files_distinct "/wd" example_tables ∅
            (<["/wd/confounds_00.rst" := [[1; 2]; [3; 4]; [5; 6]]%Z]> ∅)
            ["sub-01_task-memory_run-01_confounds.tsv"] ["CompCor"; "FD"]
            ["/wd/confounds_00.rst"] _).
  vm_compute. reflexivity.
Defined.

(** X14. The first confound file that cannot be read stops the builder with
    FileNotFoundError for that file, the files before it being readable. *)
Theorem regressors_unreadable_file {num} (cwd : string)
    (tables : gmap string (table num))
    (written : gmap string (list (list num)))
    (before after nuisance_regressors : list string) (c : string) :
  Forall (fun c => exists df, tables !! c = Some df /\ NoDup (map fst df))
         before ->
  tables !! c = None ->
  create_nuisance_regressors cwd tables written (before ++ c :: after)
    nuisance_regressors
  = Raise (FileNotFoundError c).
Proof.
  unfold create_nuisance_regressors. generalize 0, (@nil string), written.
  induction before as [|b before IH]; intros i files w Hall Hc.
  - cbn [app regressors_loop]. by rewrite Hc.
  - apply Forall_cons in Hall as [(df & Hdf & Hnd) Hall].
    destruct (select_columns_Ok df nuisance_regressors Hnd)
      as (dfs & Hsel & _).
    cbn [app regressors_loop]. rewrite Hdf, bind_Ok, Hsel, bind_Ok.
    by apply IH.
Qed.

Lemma regressors_unreadable_file_witness :
  create_nuisance_regressors "/wd" example_tables (∅ : gmap string (list (list Z)))
    (["sub-01_task-memory_run-01_confounds.tsv"]
     ++ "sub-01_task-memory_run-02_confounds.tsv" :: []) ["FD"]
  = Raise (FileNotFoundError "sub-01_task-memory_run-02_confounds.tsv").
Proof.
  apply (regressors_unreadable_file "/wd" example_tables ∅
           ["sub-01_task-memory_run-01_confounds.tsv"] [] ["FD"]
           "sub-01_task-memory_run-02_confounds.tsv").
  - repeat constructor. exists example_confounds. split; [reflexivity|].
    unfold example_confounds. cbn.
    repeat (constructor; [rewrite ?elem_of_cons, ?elem_of_nil;
                          intuition discriminate|]).
    constructor.
  - vm_compute. reflexivity.
Defined.

Lemma hits_zero (nuisance : list string) (k : string) :
  (forall n, n ∈ nuisance -> substringb n k = false) -> hits nuisance k = 0.
Proof.
  unfold hits. induction nuisance as [|n nuisance IH]; intros H; [done|].
  rewrite filter_cons, decide_False.
  - apply IH. intros m Hm. apply H. by right.
  - rewrite H by (by left). discriminate.
Qed.

Lemma substringb_empty (k : string) : substringb EmptyString k = true.
Proof. by destruct k. Qed.

(** X15. Selectors that occur in no header leave the regressor files without
    columns (so does an empty list of selectors), and the empty string as the
    only selector selects every column once: each file then holds all the
    columns of its table. A file is written in both cases. *)
Theorem regressors_edge_selectors {num} (cwd : string)
    (tables : gmap string (table num))
    (written : gmap string (list (list num)))
    (confounds nuisance_regressors : list string) :
  Forall (fun c => exists df, tables !! c = Some df /\ NoDup (map fst df))
         confounds ->
  exists regressor_files written',
    create_nuisance_regressors cwd tables written confounds nuisance_regressors
    = Ok (regressor_files, written')
    /\ forall i c df,
         confounds !! i = Some c -> tables !! c = Some df ->
         ((forall col n, col ∈ df -> n ∈ nuisance_regressors ->
             substringb n col.1 = false) ->
          written' !! regressor_path cwd i = Some [])
         /\ (nuisance_regressors = [EmptyString] ->
             written' !! regressor_path cwd i = Some (map snd df)).
Proof.
  intros Hall. unfold create_nuisance_regressors.
  destruct (regressors_loop_Ok cwd tables nuisance_regressors confounds 0 []
              written Hall) as (written' & E & Hw & _).
  eexists _, written'. split; [exact E|].
  intros i c df Hi Hc. pose proof (Hw i c df Hi Hc) as Hwi.
  change (0 + i) with i in Hwi. rewrite Hwi. split.
  - intros Hnone. f_equal. unfold regressor_columns.
    clear -Hnone. induction df as [|col df IH]; [done|].
    rewrite bind_cons, IH by (intros ????; apply Hnone; [by right|done]).
    rewrite hits_zero; [done|]. intros n Hn. apply Hnone; [by left|done].
  - intros ->. f_equal. unfold regressor_columns.
    clear. induction df as [|col df IH]; [done|].
    rewrite bind_cons, IH. unfold hits.
    rewrite filter_cons, decide_True by apply substringb_empty. done.
Qed.

Lemma regressors_edge_selectors_witness :
  exists regressor_files written',
    create_nuisance_regressors "/wd" example_tables ∅
      ["sub-01_task-memory_run-01_confounds.tsv"] []
    = Ok (regressor_files, written')
    /\ written' !! "/wd/confounds_00.rst" = Some [].
Proof.
  destruct (regressors_edge_selectors "/wd" example_tables ∅
              ["sub-01_task-memory_run-01_confounds.tsv"] [])
    as (files & written' & E & H).
  { repeat constructor. exists example_confounds. split; [reflexivity|].
    unfold example_confounds. cbn.
    repeat (constructor; [rewrite ?elem_of_cons, ?elem_of_nil;
                          intuition discriminate|]).
    constructor. }
  exists files, written'. split; [exact E|].
  apply (proj1 (H 0 "sub-01_task-memory_run-01_confounds.tsv" example_confounds
                  eq_refl eq_refl)).
  intros col n _ Hn. by apply elem_of_nil in Hn.
Defined.

(** ** Resolved contrasts: errors and names *)

Lemma mapM_result_cases {A B} (f : A -> result B) (e : exn) (l : list A) :
  Forall (fun x => (exists y, f x = Ok y) \/ f x = Raise e) l ->
  (exists k, mapM f l = Ok k /\ Forall (fun x => exists y, f x = Ok y) l)
  \/ (mapM f l = Raise e /\ Exists (fun x => f x = Raise e) l).
Proof.
  induction 1 as [|x l Hx _ IH].
  - left. exists []. by split.
  - destruct Hx as [[y Hy]|Hx].
    + destruct IH as [(k & Hk & Hall)|[Hr Hex]].
      * left. exists (y :: k). split; [|constructor; eauto].
        cbn. rewrite Hy. cbn. by rewrite Hk.
      * right. split; [|by right]. cbn. rewrite Hy. cbn. by rewrite Hr.
    + right. split; [|by left]. cbn. by rewrite Hx.
Qed.

Lemma f_entry_cases {num} (cn : list string) (c : con_spec num) :
  (exists rows, c_weights c = JArr rows
                /\ f_entry cn c = Ok (FCon (c_name c) (c_type c) (embedded cn rows)))
  \/ (exists x, c_weights c = JNum x /\ f_entry cn c = Raise TypeError).
Proof.
  unfold f_entry. destruct (c_weights c) as [x|rows]; [right|left]; eauto.
Qed.

(** X18. In a declaration whose entries all carry a name, a type and weights,
    an F entry whose weights are a bare number stops the resolution of the
    contrasts with TypeError, wherever the entry stands and whatever the
    entries before and after it are. *)
Theorem contrast_list_error {num} (condition_names : list string)
    (con_specs : list (con_spec num)) (c : con_spec num) (x : num) :
  c ∈ con_specs -> is_F c -> c_weights c = JNum x ->
  contrast_list condition_names con_specs = Raise TypeError.
Proof.
  intros Hin HF Hw.
  assert (Hcases : Forall (fun c => (exists y, f_entry condition_names c = Ok y)
                                    \/ f_entry condition_names c = Raise TypeError)
                     (filter is_F con_specs)).
  { apply Forall_forall. intros c' _.
    destruct (f_entry_cases condition_names c') as [(? & _ & ?)|(? & _ & ?)];
      eauto. }
  destruct (mapM_result_cases _ _ _ Hcases) as [(k & Hk & Hall)|[Hr Hex]].
  - exfalso. rewrite Forall_forall in Hall.
    destruct (Hall c) as [y Hy]; [by apply list_elem_of_filter|].
    unfold f_entry in Hy. rewrite Hw in Hy. discriminate Hy.
  - unfold contrast_list. by rewrite Hr.
Qed.

Lemma contrast_list_error_witness :
  contrast_list ["faces"; "houses"]
    [ ConSpec "faces > houses" "T" (JArr [JNum 1%Z; JNum (-1)%Z]);
      ConSpec "any effect" "F"
        (JArr [JArr [JNum 1%Z; JNum 0%Z]; JArr [JNum 0%Z; JNum 1%Z]]);
      ConSpec "faces" "F" (JNum 1%Z);
      ConSpec "houses" "F" (JArr [JArr [JNum 0%Z; JNum 1%Z]]) ]
  = Raise TypeError.
Proof.
  apply (contrast_list_error ["faces"; "houses"] _
           (ConSpec "faces" "F" (JNum 1%Z)) 1%Z).
  - do 2 right. by left.
  - reflexivity.
  - reflexivity.
Defined.

(** X19. The names handed to the plots, [[c[0] for c in contrast_list]], are the
    names of the declared F entries followed by the names of the declared T
    entries, each group in declaration order: the position of a name in that
    list follows the resolved list, not the declaration. *)
Theorem contrast_names_order {num} (condition_names : list string)
    (con_specs : list (con_spec num)) (l : list (contrast num)) :
  contrast_list condition_names con_specs = Ok l ->
  contrast_names l
  = map c_name (filter is_F con_specs) ++ map c_name (filter is_T con_specs).
Proof.
  intros (fs & Hfs & ->)%contrast_list_split.
  unfold contrast_names. rewrite map_app, map_map. cbn [t_entry t_name].
  f_equal. apply mapM_Ok_Forall2 in Hfs.
  induction Hfs as [|c e cs es Hc _ IH]; [done|].
  cbn [map]. rewrite IH. f_equal.
  unfold f_entry in Hc. destruct (py_iter _ _); [|discriminate].
  by injection Hc as <-.
Qed.

Lemma contrast_names_order_witness :
  contrast_names
    [ FCon "any effect" "F"
        [ TContrast "T_con_0000" "T" ["faces"; "houses"]
            (JArr [JNum 1%Z; JNum 0%Z]);
          TContrast "T_con_0001" "T" ["faces"; "houses"]
            (JArr [JNum 0%Z; JNum 1%Z]) ];
      TCon (TContrast "faces > houses" "T" ["faces"; "houses"]
              (JArr [JNum 1%Z; JNum (-1)%Z])) ]
  = map c_name (filter is_F example_contrasts)
    ++ map c_name (filter is_T example_contrasts).
Proof.
  exact (contrast_names_order ["faces"; "houses"] example_contrasts _ eq_refl).
Defined.

Lemma embedded_names {num} (cn : list string) (rows : list (json num)) :
  map t_name (embedded cn rows) = map T_con_name (seq 0 (length rows)).
Proof.
  unfold embedded.
  change (map t_name) with (fmap (M := list) (@t_name num)).
  rewrite fmap_imap.
  rewrite (imap_ext _ (fun j _ => T_con_name j)) by done.
  apply (imap_seq_0 rows T_con_name).
Qed.

(** X20. Within an F contrast the embedded T contrasts have pairwise different
    names, for any number of weight rows; the numbering starts again in every
    F contrast, so that each F contrast with a weight row has an embedded
    contrast named [T_con_0000]. *)
Theorem embedded_names_distinct {num} (condition_names : list string)
    (con_specs : list (con_spec num)) (l : list (contrast num))
    (name stat : string) (tcons : list (t_contrast num)) :
  contrast_list condition_names con_specs = Ok l ->
  FCon name stat tcons ∈ l ->
  NoDup (map t_name tcons)
  /\ (tcons ≠ [] -> t_name <$> head tcons = Some "T_con_0000").
Proof.
  intros (fs & Hfs & ->)%contrast_list_split Hin.
  apply mapM_Ok_Forall2 in Hfs.
  assert (Hemb : exists rows, tcons = embedded condition_names rows).
  { apply elem_of_app in Hin as [Hin|Hin].
    - apply list_elem_of_lookup in Hin as [i Hi].
      destruct (Forall2_lookup_r _ _ _ _ _ Hfs Hi) as (c & _ & Hc).
      unfold f_entry in Hc. destruct (py_iter _ _) as [rows|]; [|discriminate].
      injection Hc as _ _ <-. eauto.
    - apply list_elem_of_In, in_map_iff in Hin as (c & Hc & _). discriminate. }
  destruct Hemb as [rows ->]. split.
  - rewrite embedded_names.
    apply NoDup_fmap_2_strong; [|apply NoDup_seq].
    intros i j _ _. apply T_con_name_inj.
  - destruct rows as [|row rows]; [done|]. intros _. reflexivity.
Qed.

Lemma embedded_names_distinct_witness :
  NoDup ["T_con_0000"; "T_con_0001"].
Proof.
  refine (proj1 (embedded_names_distinct ["faces"; "houses"] example_contrasts
                   _ "any effect" "F"
                   [ TContrast "T_con_0000" "T" ["faces"; "houses"]
                       (JArr [JNum 1%Z; JNum 0%Z]);
                     TContrast "T_con_0001" "T" ["faces"; "houses"]
                       (JArr [JNum 0%Z; JNum 1%Z]) ] eq_refl _)).
  by left.
Defined.

(** ** Repetition time and workflow construction *)

Lemma func_desc_path_inj (t t' : string) :
  func_desc_path t = func_desc_path t' -> t = t'.
Proof.
  unfold func_desc_path, opj.
  intros E%(inj (String.app _))%(inj (String.app _))%(inj (String.app _)).
  by apply string_app_inj_r in E.
Qed.

(** X21. The repetition time is keyed by the task id: once the file of a task
    holds a [RepetitionTime], that value is the one read for the task,
    whatever else the file holds; and writing the file of one task does not
    change what is read, or raised, for any other task. *)
Theorem get_TR_keyed_by_task {num} (fs : json_files num) (task : string)
    (d : gmap string num) (v : num) :
  get_TR (<[func_desc_path task := <["RepetitionTime" := v]> d]> fs) task = Ok v
  /\ forall task', task' ≠ task ->
       get_TR (<[func_desc_path task := d]> fs) task' = get_TR fs task'.
Proof.
  split.
  - unfold get_TR, load_json, getitem.
    rewrite lookup_insert_eq, bind_Ok. by rewrite lookup_insert_eq.
  - intros task' Hne. unfold get_TR, load_json.
    rewrite lookup_insert_ne; [done|].
    intros E%func_desc_path_inj. congruence.
Qed.

Lemma contrast_list_arrays_of_Ok {num} (cn : list string)
    (cs : list (con_spec num)) (l : list (contrast num)) :
  contrast_list cn cs = Ok l ->
  forall c, c ∈ cs -> is_F c -> exists rows, c_weights c = JArr rows.
Proof.
  intros (es & Hes & _)%contrast_list_split c Hin HF.
  apply mapM_Ok_Forall2 in Hes.
  assert (Hc : c ∈ filter is_F cs) by (by apply list_elem_of_filter).
  apply list_elem_of_lookup in Hc as [i Hi].
  destruct (Forall2_lookup_l _ _ _ _ _ Hes Hi) as (e & _ & He).
  destruct (f_entry_cases cn c) as [(rows & Hrows & _)|(y & _ & Hy)];
    [eauto | congruence].
Qed.

(** X22. A workflow is built only when the three things these cells read
    are there: a repetition time for the task, an array of weight rows in
    every F contrast, and a second value in the first temporal filter; lacking
    one of them the cells raise. The workflow that is built carries that
    repetition time, that value as the high-pass cutoff (further temporal
    filters do not change it), the resolved contrasts and, per subject, per
    branch, per resolved contrast and for a thousand runs, a substitution
    rule, with two more for the postfix. *)
Theorem build_workflow_built {num} (str_num : num -> string)
    (fs : json_files num) (sp : specs num) (w : workflow num) :
  build_workflow str_num fs sp = Ok w ->
  metadata_entry fs (task_id sp) = Some (w_TR w)
  /\ (forall c, c ∈ contrasts sp -> is_F c ->
        exists rows, c_weights c = JArr rows)
  /\ (exists f, filters_temporal sp !! 0 = Some f
                /\ f !! 1 = Some (w_cutoff w))
  /\ contrast_list (condition_names sp) (contrasts sp)
     = Ok (w_contrast_list w)
  /\ length (w_substitutions w)
     = length (subject_list sp)
       + length (subject_list sp) * length (filters_temporal sp)
         * length (filters_spatial sp)
       + length (w_contrast_list w) + 1000 + 2.
Proof.
  intros Hw. unfold build_workflow in Hw.
  destruct (get_TR fs (task_id sp)) as [TR|] eqn:HTR; [|discriminate].
  rewrite bind_Ok in Hw.
  destruct (contrast_list (condition_names sp) (contrasts sp)) as [l|] eqn:Hl;
    [|discriminate].
  rewrite bind_Ok in Hw.
  destruct (high_pass_filter_cutoff (filters_temporal sp)) as [cutoff|] eqn:Hc;
    [|discriminate].
  rewrite bind_Ok in Hw. injection Hw as <-.
  cbn [w_TR w_cutoff w_substitutions w_contrast_list].
  unfold high_pass_filter_cutoff, py_index in Hc.
  destruct (filters_temporal sp !! 0) as [f|] eqn:Hf; [|discriminate].
  rewrite bind_Ok in Hc.
  destruct (f !! 1) as [x|] eqn:Hx; [|discriminate]. injection Hc as ->.
  split_and!; [by apply get_TR_Ok | | eauto | done |].
  - by eapply contrast_list_arrays_of_Ok.
  - unfold substitutions.
    rewrite !length_app, !length_map, !length_seq, branch_substitutions_length.
    cbn. lia.
Qed.

Lemma build_workflow_built_witness :
  exists w,
    build_workflow (fun z : Z => decimal (Z.to_nat z)) example_files example_specs
    = Ok w
    /\ w_TR w = 2%Z
    /\ w_cutoff w = SNum 100%Z
    /\ length (w_contrast_list w) = 2
    /\ length (w_substitutions w) = 2 + 2 * 1 * 1 + 2 + 1000 + 2.
Proof.
  destruct (build_workflow (fun z : Z => decimal (Z.to_nat z)) example_files
              example_specs) as [w|e] eqn:E; [|vm_compute in E; discriminate E].
  destruct (build_workflow_built _ _ _ _ E) as (HTR & _ & (f & Hf & Hx) & Hl & Hs).
  exists w. split; [reflexivity|]. rewrite Hs.
  remember (w_TR w) as TR eqn:ETR.
  remember (w_cutoff w) as cutoff eqn:Ecutoff.
  remember (w_contrast_list w) as l eqn:El.
  clear E Hs ETR Ecutoff El.
  vm_compute in HTR. injection HTR as <-.
  vm_compute in Hf. injection Hf as <-. injection Hx as <-.
  vm_compute in Hl. injection Hl as <-.
  split_and!; reflexivity.
Defined.

(** ** Selection of the input files *)

Lemma sorted_names_Permutation (l : list string) : sorted_names l ≡ₚ l.
Proof. apply sorted_by_Permutation. Qed.

Lemma sorted_names_sorted (l : list string) :
  StronglySorted String.le (sorted_names l).
Proof.
  pose proof (sorted_by_sorted String.compare id string_le_trans
                string_le_total l) as H.
  fold (sorted_names l) in H.
  induction H as [|a k Hk IH Ha]; constructor; [exact IH|].
  eapply Forall_impl; [exact Ha|]. intros b. apply string_cmp_le.
Qed.

Example transforms_pattern_01 :
  transforms_pattern "01"
  = "/data/derivatives/fmriflows/preproc_anat/sub-01/sub-01_transformComposite.h5".
Proof. reflexivity. Qed.

Example func_pattern_01 :
  func_pattern (fun z : Z => decimal (Z.to_nat z)) "01" "memory"
    [SNum 5%Z; SNum 100%Z] [SStr "LP"; SNum 6%Z]
  = "/data/derivatives/fmriflows/preproc_func/sub-01/sub-01_task-memory_run-*tFilter_5.100_sFilter_LP_6mm.nii.gz".
Proof. reflexivity. Qed.

(** X17. [create_file_path] fails exactly when no transform file matches, with
    IndexError, whatever the other patterns match. When it returns, the
    transform is the first match as [glob] lists them, and the functional
    images, the outlier files and the confound files are each all the matches
    of their pattern, in ascending order of their names (none of the three
    lists has to be non-empty, and they need not have the same length). *)
Theorem create_file_path_result {num} (str_num : num -> string)
    (glob : string -> list string) (sub_id task_id : string)
    (tFilter sFilter : list (scalar num)) :
  (create_file_path str_num glob sub_id task_id tFilter sFilter
   = Raise IndexError
   <-> glob (transforms_pattern sub_id) = [])
  /\ (forall r,
        create_file_path str_num glob sub_id task_id tFilter sFilter = Ok r ->
        head (glob (transforms_pattern sub_id)) = Some (sf_transforms r)
        /\ (sf_func r
            ≡ₚ glob (func_pattern str_num sub_id task_id tFilter sFilter)
            /\ StronglySorted String.le (sf_func r))
        /\ (sf_outliers r ≡ₚ glob (outliers_pattern sub_id task_id)
            /\ StronglySorted String.le (sf_outliers r))
        /\ (sf_confounds r ≡ₚ glob (confounds_pattern sub_id task_id)
            /\ StronglySorted String.le (sf_confounds r))).
Proof.
  unfold create_file_path, py_index.
  destruct (glob (transforms_pattern sub_id)) as [|t ts] eqn:E; cbn.
  - split; [done|]. intros r [=].
  - split; [split; discriminate|]. intros r [= <-]. cbn.
    split_and!; auto using sorted_names_Permutation, sorted_names_sorted.
Qed.

(** X16. In the workflow the confound files reach the regressor builder sorted by
    name: the regressor file numbered [i] holds the selected columns of the
    [i]-th confound file in ascending order of the names, in whatever order
    [glob] lists the files. *)
Theorem regressors_follow_sorted_confounds {num} (str_num : num -> string)
    (glob : string -> list string) (sub_id task_id : string)
    (tFilter sFilter : list (scalar num)) (r : selected_files)
    (cwd : string) (tables : gmap string (table num))
    (written : gmap string (list (list num)))
    (nuisance_regressors : list string) :
  create_file_path str_num glob sub_id task_id tFilter sFilter = Ok r ->
  Forall (fun c => exists df, tables !! c = Some df /\ NoDup (map fst df))
         (glob (confounds_pattern sub_id task_id)) ->
  exists regressor_files written',
    create_nuisance_regressors cwd tables written (sf_confounds r)
      nuisance_regressors
    = Ok (regressor_files, written')
    /\ length regressor_files
       = length (glob (confounds_pattern sub_id task_id))
    /\ forall i c df,
         sorted_names (glob (confounds_pattern sub_id task_id)) !! i = Some c ->
         tables !! c = Some df ->
         regressor_files !! i = Some (regressor_path cwd i)
         /\ written' !! regressor_path cwd i
            = Some (regressor_columns df nuisance_regressors).
Proof.
  intros Hr Hall.
  assert (Hconf : sf_confounds r
                  = sorted_names (glob (confounds_pattern sub_id task_id))).
  { unfold create_file_path in Hr.
    destruct (py_index _ 0); [|discriminate]. by injection Hr as <-. }
  rewrite Hconf. unfold create_nuisance_regressors.
  destruct (regressors_loop_Ok cwd tables nuisance_regressors
              (sorted_names (glob (confounds_pattern sub_id task_id))) 0 []
              written) as (written' & E & Hw & _).
  { by rewrite sorted_names_Permutation. }
  eexists _, written'. split; [exact E|]. split.
  - cbn. rewrite length_map, length_seq.
    apply Permutation_length, sorted_names_Permutation.
  - intros i c df Hi Hc. split.
    + cbn. rewrite list_lookup_fmap, lookup_seq_lt; [done|].
      by eapply lookup_lt_Some.
    + by apply (Hw i c df).
Qed.

Lemma regressors_follow_sorted_confounds_witness :
  exists regressor_files written',
    create_nuisance_regressors "/wd" example_tables
      (∅ : gmap string (list (list Z)))
      ["sub-01_task-memory_run-01_confounds.tsv"] ["FD"]
    = Ok (regressor_files, written')
    /\ length regressor_files = 1.
Proof.
  destruct (regressors_follow_sorted_confounds
              (fun z : Z => decimal (Z.to_nat z))
              (fun p => if String.eqb p (confounds_pattern "01" "memory")
                        then ["sub-01_task-memory_run-01_confounds.tsv"]
                        else [p])
              "01" "memory" [SNum 5%Z; SNum 100%Z] [SStr "LP"; SNum 6%Z]
              (SelectedFiles (transforms_pattern "01")
                 [func_pattern (fun z : Z => decimal (Z.to_nat z)) "01" "memory"
                    [SNum 5%Z; SNum 100%Z] [SStr "LP"; SNum 6%Z]]
                 [outliers_pattern "01" "memory"]
                 ["sub-01_task-memory_run-01_confounds.tsv"])
              "/wd" example_tables ∅ ["FD"])
    as (files & written' & E & Hlen & _).
  - vm_compute. reflexivity.
  - repeat constructor. exists example_confounds. split; [reflexivity|].
    unfold example_confounds. cbn.
    repeat (constructor; [rewrite ?elem_of_cons, ?elem_of_nil;
                          intuition discriminate|]).
    constructor.
  - exists files, written'. split; [exact E | exact Hlen].
Defined.

(** ** From the event files to the run contrasts *)

Lemma rectangular_of_lengths {B} (L : nat) (ll : list (list B)) :
  Forall (fun l => length l = L) ll -> rectangular ll = true.
Proof.
  intros H. destruct ll as [|l ll]; [done|].
  apply Forall_cons in H as [Hl Hll]. cbn [rectangular].
  apply forallb_forall. intros l' Hl'%list_elem_of_In.
  rewrite Forall_forall in Hll. apply Nat.eqb_eq. rewrite Hl. by apply Hll.
Qed.

(** X5. The stimuli order of [subjectinfo] feeds [get_contrast_per_run]: when
    every event file of the subject has the same number of rows, at least
    one ('empty' rows count), there are as many run contrasts, and as many
    labels, as condition names times event files. *)
Theorem run_contrasts_of_subject {num} (sub : num -> num -> num)
    (event_glob : list (string * list (event num)))
    (nss_glob : list (string * num)) (condition_names : list string)
    (subject_info : list (bunch num)) (stimuli_order : list (list string))
    (L : nat) :
  subjectinfo sub event_glob nss_glob = Ok (subject_info, stimuli_order) ->
  Forall (fun f => length f.2 = L) event_glob ->
  0 < L ->
  exists run_contrasts condition_labels,
    get_contrast_per_run stimuli_order condition_names
    = Ok (run_contrasts, condition_labels)
    /\ length run_contrasts = length condition_names * length event_glob
    /\ length condition_labels = length condition_names * length event_glob
    /\ length subject_info = length event_glob.
Proof.
  unfold subjectinfo.
  intros (bs & [= -> ->] & Hlen & _)%subjectinfo_loop_Ok Hall HL.
  cbn [app].
  assert (Hso : Forall (fun l : list string => length l = L)
                  (map (fun f => map condition f.2) (sorted_files event_glob))).
  { rewrite Forall_forall. intros l (f & <- & Hf)%list_elem_of_In%in_map_iff.
    rewrite length_map. rewrite Forall_forall in Hall. apply Hall.
    rewrite <- (sorted_files_Permutation event_glob). by apply list_elem_of_In. }
  assert (Hrect := rectangular_of_lengths L _ Hso).
  assert (Hr : length (runs_with_events
                         (map (fun f => map condition f.2)
                            (sorted_files event_glob)))
               = length event_glob).
  { rewrite runs_with_events_all.
    - by rewrite length_map, sorted_files_length.
    - eapply Forall_impl; [exact Hso|]. intros l Hl ->. cbn in Hl. lia. }
  rewrite (get_contrast_per_run_entries _ condition_names Hrect), Hr.
  eexists _, _. split; [reflexivity|]. split_and!.
  - rewrite length_map, run_pairs_length. lia.
  - rewrite length_concat_replicate. lia.
  - by rewrite Hlen, sorted_files_length.
Qed.

Lemma run_contrasts_of_subject_witness :
  exists run_contrasts condition_labels,
    get_contrast_per_run
      [ ["faces"; "empty"; "faces"]; ["houses"; "empty"; "faces"] ]
      ["faces"; "houses"]
    = Ok (run_contrasts, condition_labels)
    /\ length run_contrasts = 4.
Proof.
  destruct (run_contrasts_of_subject Z.sub example_events example_nss
              ["faces"; "houses"] _ _ 3 eq_refl)
    as (rc & labels & E & Hlen & _).
  - repeat constructor.
  - lia.
  - exists rc, labels. split; [exact E | exact Hlen].
Defined.
